(** * Verification of the face-detection pipeline: geometry estimators,
    flag aggregator and throttled frame processor.

    Shallow embedding of
    - src/lib/rotationEstimator.js   (module [Rotation])
    - src/lib/gazeEstimator.js       (module [Gaze])
    - src/lib/flagManager.js, first [processAnalysis] (module [FlagManager])
    - the [createFrameProcessor] part of src/hooks/useWebcam.js (module [FrameProcessor]).

    JS numbers are IEEE-754 doubles, modelled by Rocq's primitive floats, whose
    operations (+, -, *, /, sqrt, comparisons) round exactly as JS does.
    Code that can throw is written in a small exception monad [res]. *)

From Stdlib Require Import List Ascii String Bool Arith Lia ZArith Floats Permutation Sorting.Sorted.
Import ListNotations.
Open Scope string_scope.
Open Scope nat_scope.
Set Warnings "-inexact-float".


(** ** JS runtime helpers *)
Module JS.

(** A computation that returns a value or throws (the thrown value is a string). *)
Inductive res (A : Type) : Type :=
| Ok (a : A)
| Throw (e : string).
Arguments Ok {A} a.
Arguments Throw {A} e.

Definition bind {A B} (m : res A) (k : A -> res B) : res B :=
  match m with Ok a => k a | Throw e => Throw e end.

Notation "x <- m ;; k" := (bind m (fun x => k))
  (at level 61, m at next level, right associativity).

(** Truthiness of a number: [0], [-0] and [NaN] are falsy. *)
Definition num_truthy (x : float) : bool :=
  negb (PrimFloat.eqb x 0%float || PrimFloat.is_nan x).

(** [x || 0] on a number. *)
Definition or0 (x : float) : float := if num_truthy x then x else 0%float.

(** [Math.min] / [Math.max] of two numbers: NaN propagates, and [-0] is
    smaller than [+0]. *)
Definition js_min (a b : float) : float :=
  if PrimFloat.is_nan a || PrimFloat.is_nan b then PrimFloat.nan
  else if PrimFloat.ltb a b then a
  else if PrimFloat.ltb b a then b
  else if PrimFloat.get_sign a then a else b.

Definition js_max (a b : float) : float :=
  if PrimFloat.is_nan a || PrimFloat.is_nan b then PrimFloat.nan
  else if PrimFloat.ltb a b then b
  else if PrimFloat.ltb b a then a
  else if PrimFloat.get_sign a then b else a.

(** [Math.round]: the integer nearest to [x], ties towards +infinity; a
    negative input rounding to zero gives [-0]. For a finite
    [x = (-1)^s * m * 2^e] with [e < 0] the result is
    [floor (x + 1/2) = floor ((2 * sm + 2^-e) / 2^(1-e))], computed exactly. *)
Definition js_round (x : float) : float :=
  match FloatOps.Prim2SF x with
  | SpecFloat.S754_finite s m e =>
      if (0 <=? e)%Z then x
      else
        let sm := if s then Z.neg m else Z.pos m in
        let n := Z.div (2 * sm + 2 ^ (- e)) (2 ^ (1 - e)) in
        FloatOps.SF2Prim
          (SpecFloat.binary_normalize FloatOps.prec FloatOps.emax n 0 s)
  | _ => x
  end.

(** A JS number holding a natural number. *)
Definition num_of_nat (n : nat) : float :=
  PrimFloat.of_uint63 (Uint63.of_Z (Z.of_nat n)).

(** [String.prototype.toLowerCase] on the ASCII strings this code handles. *)
Definition ascii_lower (c : Ascii.ascii) : Ascii.ascii :=
  let n := Ascii.nat_of_ascii c in
  if (65 <=? n) && (n <=? 90) then Ascii.ascii_of_nat (n + 32) else c.

Fixpoint toLowerCase (s : string) : string :=
  match s with
  | EmptyString => EmptyString
  | String c s' => String (ascii_lower c) (toLowerCase s')
  end.

(** [s.replace('_', '-')]: a string pattern replaces its first occurrence only. *)
Fixpoint replace_underscore (s : string) : string :=
  match s with
  | EmptyString => EmptyString
  | String c s' =>
      if Ascii.eqb c "_"%char then String "-"%char s' else String c (replace_underscore s')
  end.

(** The result of [obj[key]] on an object literal whose own properties are
    strings: an own string, an inherited property of [Object.prototype] (a
    method, or the prototype itself for [__proto__]; all are truthy and none
    is a string), or [undefined]. *)
Inductive prop_read : Type :=
| OwnString (s : string)
| Inherited (name : string)
| Undefined.

Definition object_prototype_keys : list string :=
  ["constructor"; "__defineGetter__"; "__defineSetter__"; "hasOwnProperty";
   "__lookupGetter__"; "__lookupSetter__"; "isPrototypeOf"; "propertyIsEnumerable";
   "toString"; "valueOf"; "__proto__"; "toLocaleString"].

Definition read_prop (own : list (string * string)) (key : string) : prop_read :=
  match find (fun kv => String.eqb (fst kv) key) own with
  | Some kv => OwnString (snd kv)
  | None =>
      if existsb (String.eqb key) object_prototype_keys then Inherited key else Undefined
  end.

(** A value [messages[flag] || flag] can be: a string, or an inherited
    non-string property. *)
Inductive msg : Type :=
| MStr (s : string)
| MInherited (name : string).

(** [obj[key] || key] *)
Definition read_or_key (own : list (string * string)) (key : string) : msg :=
  match read_prop own key with
  | OwnString v => if String.eqb v "" then MStr key else MStr v
  | Inherited n => MInherited n
  | Undefined => MStr key
  end.

End JS.

Import JS.

(** ** Landmarks

    A landmark is [{x, y, z}] with normalized coordinates. An entry of the
    landmark array may also be missing ([undefined], e.g. a hole or an index
    past the end) or [null]. *)
Module Landmarks.

Record point := mkPoint { x : float; y : float; z : float }.

Inductive lval : Type :=
| LUndef
| LNull
| LPoint (p : point).

(** [landmarks[i]]: out of range reads [undefined]. *)
Definition at_ (landmarks : list lval) (i : nat) : lval :=
  nth i landmarks LUndef.

(** [!v] for a landmark entry. *)
Definition falsy (v : lval) : bool :=
  match v with LPoint _ => false | _ => true end.

(** Property reads [v.x] and [v.y]: on [undefined] or [null] they throw a
    TypeError. *)
Definition get_x (v : lval) : res float :=
  match v with
  | LPoint p => Ok (x p)
  | LUndef => Throw "TypeError: Cannot read properties of undefined (reading 'x')"
  | LNull => Throw "TypeError: Cannot read properties of null (reading 'x')"
  end.

Definition get_y (v : lval) : res float :=
  match v with
  | LPoint p => Ok (y p)
  | LUndef => Throw "TypeError: Cannot read properties of undefined (reading 'y')"
  | LNull => Throw "TypeError: Cannot read properties of null (reading 'y')"
  end.

(** Optional chaining [v?.x]: [undefined] on a missing entry. *)
Definition opt_x (v : lval) : option float :=
  match v with LPoint p => Some (x p) | _ => None end.

(** [(v?.x || 0)] *)
Definition opt_x_or0 (v : lval) : float :=
  match opt_x v with Some a => or0 a | None => 0%float end.

(** The analyzers take [landmarks], which may be [null]/[undefined] ([None]). *)
Definition input := option (list lval).

End Landmarks.

Import Landmarks.

(** ** src/lib/rotationEstimator.js *)
Module Rotation.

Definition NOSE_TIP := 1.
Definition RIGHT_EAR := 234.
Definition LEFT_EAR := 454.
Definition RIGHT_EYE_OUTER := 33.
Definition LEFT_EYE_OUTER := 263.

Definition YAW_THRESHOLD : float := 0.6.
Definition ROLL_THRESHOLD : float := 0.15.

Definition distance (p1 p2 : lval) : res float :=
  if falsy p1 || falsy p2 then Ok 0%float
  else
    x1 <- get_x p1 ;; x2 <- get_x p2 ;; y1 <- get_y p1 ;; y2 <- get_y p2 ;;
    let dx := (x1 - x2)%float in
    let dy := (y1 - y2)%float in
    Ok (PrimFloat.sqrt (dx * dx + dy * dy))%float.

Definition estimateYaw (landmarks : list lval) : res string :=
  let nose := at_ landmarks NOSE_TIP in
  let leftEar := at_ landmarks LEFT_EAR in
  let rightEar := at_ landmarks RIGHT_EAR in
  if falsy nose || falsy leftEar || falsy rightEar then Ok "CENTER"
  else
    leftEarDist <- distance nose leftEar ;;
    rightEarDist <- distance nose rightEar ;;
    if PrimFloat.eqb leftEarDist 0 || PrimFloat.eqb rightEarDist 0 then Ok "CENTER"
    else
      let ratio := (rightEarDist / leftEarDist)%float in
      if PrimFloat.ltb ratio YAW_THRESHOLD then Ok "LEFT"
      else if PrimFloat.ltb (1 / YAW_THRESHOLD)%float ratio then Ok "RIGHT"
      else Ok "CENTER".

Definition estimateRoll (landmarks : list lval) : res string :=
  let leftEye := at_ landmarks LEFT_EYE_OUTER in
  let rightEye := at_ landmarks RIGHT_EYE_OUTER in
  if falsy leftEye || falsy rightEye then Ok "LEVEL"
  else
    eyeDistance <- distance leftEye rightEye ;;
    if PrimFloat.eqb eyeDistance 0 then Ok "LEVEL"
    else
      ly <- get_y leftEye ;; ry <- get_y rightEye ;;
      let heightDiff := ((ly - ry) / eyeDistance)%float in
      if PrimFloat.ltb ROLL_THRESHOLD heightDiff then Ok "TILTED_RIGHT"
      else if PrimFloat.ltb heightDiff (- ROLL_THRESHOLD)%float then Ok "TILTED_LEFT"
      else Ok "LEVEL".

Record rotation := mkRotation { yaw : string; roll : string; isRotated : bool }.

Definition analyzeRotation (landmarks : input) : res rotation :=
  match landmarks with
  | Some l =>
      if List.length l <? 478 then
        Ok (mkRotation "UNKNOWN" "UNKNOWN" false)
      else
        yaw <- estimateYaw l ;;
        roll <- estimateRoll l ;;
        let isRotated := negb (String.eqb yaw "CENTER") in
        Ok (mkRotation yaw roll isRotated)
  | None => Ok (mkRotation "UNKNOWN" "UNKNOWN" false)
  end.

End Rotation.

(** ** src/lib/gazeEstimator.js *)
Module Gaze.

Definition RIGHT_IRIS := 468.
Definition LEFT_IRIS := 473.
Definition RIGHT_EYE_OUTER := 33.
Definition RIGHT_EYE_INNER := 133.
Definition RIGHT_EYE_TOP := 27.
Definition RIGHT_EYE_BOTTOM := 23.
Definition LEFT_EYE_INNER := 362.
Definition LEFT_EYE_OUTER := 263.
Definition LEFT_EYE_TOP := 257.
Definition LEFT_EYE_BOTTOM := 253.

Definition HORIZONTAL_THRESHOLD : float := 0.15.
Definition VERTICAL_THRESHOLD : float := 0.25.
Definition MIN_EYE_HEIGHT_RATIO : float := 0.02.

Definition getNormalizedOffset (irisPos minPos maxPos : float) : float :=
  let center := ((minPos + maxPos) / 2)%float in
  let range := PrimFloat.abs (maxPos - minPos)%float in
  if PrimFloat.ltb range 0.001 then 0%float
  else
    let offset := (((irisPos - center) / range) * 2)%float in
    js_max (-1)%float (js_min 1%float offset).

Definition getHorizontalOffset (iris inner outer : lval) : res float :=
  if falsy iris || falsy inner || falsy outer then Ok 0%float
  else
    ix <- get_x iris ;; nx <- get_x inner ;; ox <- get_x outer ;;
    Ok (getNormalizedOffset ix (js_min nx ox) (js_max nx ox)).

(** The result object [{ offset, valid }]. *)
Record vresult := mkV { offset : float; valid : bool }.

Definition getVerticalOffset (iris top bottom : lval) (eyeWidth : float) : res vresult :=
  if falsy iris || falsy top || falsy bottom then Ok (mkV 0 false)
  else
    by_ <- get_y bottom ;; ty <- get_y top ;;
    let eyeHeight := PrimFloat.abs (by_ - ty)%float in
    if PrimFloat.ltb 0 eyeWidth
       && PrimFloat.ltb (eyeHeight / eyeWidth)%float MIN_EYE_HEIGHT_RATIO
    then Ok (mkV 0 false)
    else
      iy <- get_y iris ;;
      Ok (mkV (getNormalizedOffset iy (js_min ty by_) (js_max ty by_)) true).

(** The [details] object. Its numbers are shown with [toFixed(3)] and only
    feed the debug log; they are kept here as the numbers themselves. *)
Record details := mkDetails {
  rightH : float; leftH : float; avgH : float;
  rightV : float; leftV : float; avgV : float; vValid : bool }.

Record gaze := mkGaze {
  horizontalGaze : string;
  verticalGaze : string;
  gazeDirection : string;
  isLookingAway : bool;
  confidence : float;
  gdetails : option details }.

Definition unknown_gaze : gaze :=
  mkGaze "UNKNOWN" "UNKNOWN" "UNKNOWN" false 0 None.

Definition analyzeGaze (landmarks : input) : res gaze :=
  match landmarks with
  | None => Ok unknown_gaze
  | Some l =>
    if List.length l <? 478 then Ok unknown_gaze
    else
      let rightIris := at_ l RIGHT_IRIS in
      let leftIris := at_ l LEFT_IRIS in
      let rightInner := at_ l RIGHT_EYE_INNER in
      let rightOuter := at_ l RIGHT_EYE_OUTER in
      let rightTop := at_ l RIGHT_EYE_TOP in
      let rightBottom := at_ l RIGHT_EYE_BOTTOM in
      let leftInner := at_ l LEFT_EYE_INNER in
      let leftOuter := at_ l LEFT_EYE_OUTER in
      let leftTop := at_ l LEFT_EYE_TOP in
      let leftBottom := at_ l LEFT_EYE_BOTTOM in
      let rightEyeWidth := PrimFloat.abs (opt_x_or0 rightOuter - opt_x_or0 rightInner)%float in
      let leftEyeWidth := PrimFloat.abs (opt_x_or0 leftOuter - opt_x_or0 leftInner)%float in
      rightHorizontal <- getHorizontalOffset rightIris rightInner rightOuter ;;
      leftHorizontal <- getHorizontalOffset leftIris leftInner leftOuter ;;
      let avgHorizontal := ((rightHorizontal + leftHorizontal) / 2)%float in
      rightVertResult <- getVerticalOffset rightIris rightTop rightBottom rightEyeWidth ;;
      leftVertResult <- getVerticalOffset leftIris leftTop leftBottom leftEyeWidth ;;
      let verticalValid := valid rightVertResult && valid leftVertResult in
      let avgVertical :=
        if verticalValid
        then ((offset rightVertResult + offset leftVertResult) / 2)%float
        else 0%float in
      let horizontalGaze :=
        if PrimFloat.ltb avgHorizontal (- HORIZONTAL_THRESHOLD)%float then "LEFT"
        else if PrimFloat.ltb HORIZONTAL_THRESHOLD avgHorizontal then "RIGHT"
        else "CENTER" in
      let verticalGaze :=
        if verticalValid then
          if PrimFloat.ltb avgVertical (- VERTICAL_THRESHOLD)%float then "UP"
          else if PrimFloat.ltb VERTICAL_THRESHOLD avgVertical then "DOWN"
          else "CENTER"
        else "CENTER" in
      let directions :=
        app (if negb (String.eqb verticalGaze "CENTER") then [verticalGaze] else [])
            (if negb (String.eqb horizontalGaze "CENTER") then [horizontalGaze] else []) in
      let gazeDirection :=
        if Nat.ltb 0 (List.length directions) then String.concat "_" directions else "CENTER" in
      let isLookingAway :=
        negb (String.eqb horizontalGaze "CENTER") || negb (String.eqb verticalGaze "CENTER") in
      let hDiff := PrimFloat.abs (rightHorizontal - leftHorizontal)%float in
      let vDiff :=
        if verticalValid
        then PrimFloat.abs (offset rightVertResult - offset leftVertResult)%float
        else 0%float in
      let confidence := js_max 0 (1 - (hDiff + vDiff))%float in
      let d := mkDetails rightHorizontal leftHorizontal avgHorizontal
                 (offset rightVertResult) (offset leftVertResult) avgVertical
                 verticalValid in
      Ok (mkGaze horizontalGaze verticalGaze gazeDirection isLookingAway confidence (Some d))
  end.

End Gaze.

(** ** src/lib/flagManager.js (the [processAnalysis] of lines 47-119) *)
Module FlagManager.

Definition FACE_MISSING_THRESHOLD := 3.
Definition LOW_LIGHT_THRESHOLD : float := 50.

(** A JS value used as a gaze direction: [undefined], [null] or a string. *)
Inductive gval : Type :=
| GUndef
| GNull
| GStr (s : string).

(** Strict equality [===] on such values. *)
Definition gval_eqb (a b : gval) : bool :=
  match a, b with
  | GUndef, GUndef => true
  | GNull, GNull => true
  | GStr s, GStr t => String.eqb s t
  | _, _ => false
  end.

(** [v || null]: the empty string is falsy. *)
Definition gval_or_null (v : gval) : gval :=
  match v with
  | GStr s => if String.eqb s "" then GNull else v
  | _ => GNull
  end.

(** The [analysis] argument, a [Sample]. *)
Module Analysis.
Record t := mk {
  faceCount : nat;
  isRotated : bool;
  isLookingAway : bool;
  gazeDirection : gval;
  brightness : float }.
End Analysis.

(** A history entry [{ timestamp, flags, details }]. *)
Module History.
Record details := mkDetails {
  faceCount : nat;
  isRotated : bool;
  isLookingAway : bool;
  gazeDirection : gval;
  brightness : float }.
Record entry := mkEntry {
  timestamp : float;
  flags : list string;
  entry_details : details }.
End History.

Record state := mkState {
  currentFlags : list string;
  gazeDirection : gval;
  consecutiveMissing : nat;
  lastUpdate : option float;
  history : list History.entry }.

Definition createInitialState : state := mkState [] GNull 0 None [].

(** [Array.prototype.sort] without comparator on strings: ascending order of
    the code units (the flag names are ASCII). An insertion sort gives the
    same result for this total order. *)
Fixpoint insert (s : string) (l : list string) : list string :=
  match l with
  | [] => [s]
  | h :: t => if String.leb s h then s :: l else h :: insert s t
  end.

Definition sort (l : list string) : list string := fold_right insert [] l.

(** [sortedA.every((val, idx) => val === sortedB[idx])] *)
Fixpoint every_idx (sa sb : list string) : bool :=
  match sa, sb with
  | [], _ => true
  | v :: sa', w :: sb' => String.eqb v w && every_idx sa' sb'
  | _ :: _, [] => false
  end.

Definition arraysEqual (a b : list string) : bool :=
  if negb (Nat.eqb (List.length a) (List.length b)) then false
  else every_idx (sort a) (sort b).

(** [arr.slice(-19)] *)
Definition slice_last19 {A} (l : list A) : list A := skipn (List.length l - 19) l.

(** The face-presence branch: the flags it pushes, the new
    [consecutiveMissing] and [currentGazeDirection]. *)
Definition face_branch (st : state) (a : Analysis.t) : list string * nat * gval :=
  let faceCount := Analysis.faceCount a in
  if 1 <? faceCount then (["MULTIPLE_FACES"], 0, GNull)
  else if faceCount =? 0 then
    let consecutiveMissing := S (consecutiveMissing st) in
    (if FACE_MISSING_THRESHOLD <=? consecutiveMissing then ["FACE_MISSING"] else [],
     consecutiveMissing, GNull)
  else if Analysis.isRotated a then (["FACE_ROTATED"], 0, GNull)
  else if Analysis.isLookingAway a then (["GAZE_AWAY"], 0, Analysis.gazeDirection a)
  else (["FACE_OK"], 0, GNull).

(** [processAnalysis(state, analysis)]; [now] is the value of [Date.now()]. *)
Definition processAnalysis (now : float) (st : state) (a : Analysis.t) : state :=
  let '(faceFlags, consecutiveMissing, currentGazeDirection) := face_branch st a in
  let newFlags :=
    app faceFlags
      (if PrimFloat.ltb (Analysis.brightness a) LOW_LIGHT_THRESHOLD
       then ["LOW_LIGHT"] else []) in
  let flagsChanged :=
    negb (arraysEqual (currentFlags st) newFlags)
    || (Analysis.isLookingAway a && negb (gval_eqb (gazeDirection st) currentGazeDirection)) in
  let history :=
    if flagsChanged then
      app (slice_last19 (history st))
        [History.mkEntry now newFlags
           (History.mkDetails (Analysis.faceCount a) (Analysis.isRotated a)
              (Analysis.isLookingAway a) (gval_or_null (Analysis.gazeDirection a))
              (js_round (Analysis.brightness a)))]
    else history st in
  mkState newFlags currentGazeDirection consecutiveMissing (Some now) history.

(** [formatGazeDirection(direction)] *)
Definition formatGazeDirection (direction : gval) : string :=
  match direction with
  | GStr d =>
      if String.eqb d "" || String.eqb d "CENTER" then "away"
      else replace_underscore (toLowerCase d)
  | _ => "away"
  end.

(** [getFlagMessage(flag, gazeDirection = null)]; an [undefined] argument
    takes the default [null]. *)
Definition getFlagMessage (flag : string) (gazeDirection : gval) : msg :=
  let messages :=
    [("FACE_OK", "Face detected");
     ("FACE_MISSING", "Warning: Face not detected");
     ("MULTIPLE_FACES", "Error: Multiple faces detected");
     ("FACE_ROTATED", "Warning: Face rotated away");
     ("GAZE_AWAY",
       match gazeDirection with
       | GStr d =>
           if String.eqb d "" then "Warning: Eyes looking away"
           else "Warning: Eyes looking " ++ formatGazeDirection gazeDirection
       | _ => "Warning: Eyes looking away"
       end%string);
     ("LOW_LIGHT", "Warning: Low lighting")] in
  read_or_key messages flag.

Definition getFlagSeverity (flag : string) : string :=
  if String.eqb flag "FACE_OK" then "ok"
  else if String.eqb flag "MULTIPLE_FACES" then "error"
  else "warning".

(** Feeding samples one after the other, with their [Date.now()] values. *)
Fixpoint run (st : state) (xs : list (float * Analysis.t)) : state :=
  match xs with
  | [] => st
  | (now, a) :: xs' => run (processAnalysis now st a) xs'
  end.

(** The states after each sample. *)
Fixpoint trace (st : state) (xs : list (float * Analysis.t)) : list state :=
  match xs with
  | [] => []
  | (now, a) :: xs' => let st' := processAnalysis now st a in st' :: trace st' xs'
  end.

(** Vocabulary for the proofs below. *)

(** The flags of the face-presence branch. *)
Definition face_flags (st : state) (a : Analysis.t) : list string :=
  fst (fst (face_branch st a)).

(** The status flags, one of which at most is raised per sample. *)
Definition status_flags : list string :=
  ["MULTIPLE_FACES"; "FACE_MISSING"; "FACE_ROTATED"; "GAZE_AWAY"; "FACE_OK"].

Definition is_status (f : string) : bool := existsb (String.eqb f) status_flags.

(** Every flag list [processAnalysis] can produce. *)
Definition flag_shapes : list (list string) :=
  flat_map (fun f => [f; app f ["LOW_LIGHT"]])
    [[]; ["MULTIPLE_FACES"]; ["FACE_MISSING"]; ["FACE_ROTATED"]; ["GAZE_AWAY"]; ["FACE_OK"]].

(** Equality of two flag lists as unordered sets. *)
Definition set_eqb (a b : list string) : bool :=
  forallb (fun f => existsb (String.eqb f) b) a && forallb (fun f => existsb (String.eqb f) a) b.

End FlagManager.

(** ** src/lib/flagManager.js, second version (lines 188-306)

    The file holds a second, simpler flag manager: no rotation or gaze flags,
    and the state keeps the last [faceCount]. It is the one the page uses
    ([getFlagMessage(flag)] with one argument, [flagState.faceCount]). *)
Module FlagManagerV2.
Import FlagManager.

Module History.
Record details := mkDetails { faceCount : nat; brightness : float }.
Record entry := mkEntry {
  timestamp : float;
  flags : list string;
  entry_details : details }.
End History.

Record state := mkState {
  currentFlags : list string;
  faceCount : nat;
  consecutiveMissing : nat;
  lastUpdate : option float;
  history : list History.entry }.

Definition createInitialState : state := mkState [] 0 0 None [].

(** [processAnalysis(state, analysis)]; only [faceCount] and [brightness]
    are read from the sample. *)
Definition processAnalysis (now : float) (st : state) (a : Analysis.t) : state :=
  let faceCount := Analysis.faceCount a in
  let brightness := Analysis.brightness a in
  let '(faceFlags, consecutiveMissing) :=
    if 1 <? faceCount then (["MULTIPLE_FACES"], 0)
    else if faceCount =? 0 then
      let consecutiveMissing := S (consecutiveMissing st) in
      (if FACE_MISSING_THRESHOLD <=? consecutiveMissing then ["FACE_MISSING"] else [],
       consecutiveMissing)
    else (["FACE_OK"], 0) in
  let newFlags :=
    app faceFlags
      (if PrimFloat.ltb brightness LOW_LIGHT_THRESHOLD then ["LOW_LIGHT"] else []) in
  let flagsChanged := negb (arraysEqual (currentFlags st) newFlags) in
  let history :=
    if flagsChanged then
      app (slice_last19 (history st))
        [History.mkEntry now newFlags (History.mkDetails faceCount (js_round brightness))]
    else history st in
  mkState newFlags faceCount consecutiveMissing (Some now) history.

Definition getFlagMessage (flag : string) : msg :=
  let messages :=
    [("FACE_OK", "Face detected");
     ("FACE_MISSING", "Warning: Face not detected");
     ("MULTIPLE_FACES", "Error: Multiple faces detected");
     ("LOW_LIGHT", "Warning: Low lighting")] in
  read_or_key messages flag.

Fixpoint run (st : state) (xs : list (float * Analysis.t)) : state :=
  match xs with
  | [] => st
  | (now, a) :: xs' => run (processAnalysis now st a) xs'
  end.

End FlagManagerV2.

(** ** [createFrameProcessor] (src/hooks/useWebcam.js, lines 141-346)

    The processor's closure variables are the state. [processFrame] is async:
    it runs synchronously up to [await detectFaces(frame)], then resumes when
    the detector settles. It is modelled by two inputs: [Tick] (the interval
    fires) and [DetectSettled] (the awaited promise settles); between them the
    suspended activation, with its [startTime], is [pending]. The callbacks
    [onAnalysis], [onDisabled], [onError] are those the page passes (all
    present); their calls are the outputs. *)
Module FrameProcessor.

Definition PROCESS_INTERVAL_MS : float := 500.
Definition MAX_PROCESSING_MS : float := 200.
Definition MAX_CONSECUTIVE_OVERRUNS := 3.

(** JS values in the reported object. *)
Inductive jsval : Type :=
| JNum (n : float)
| JBool (b : bool)
| JStr (s : string)
| JNull.

(** A plain JS object: its own properties in insertion order. *)
Definition jsobject := list (string * jsval).

Record fp := mkFP {
  intervalId : bool;            (** [intervalId !== null] *)
  isProcessing : bool;
  consecutiveOverruns : nat;
  isDisabled : bool;
  pending : option float }.     (** suspended [processFrame] and its [startTime] *)

Definition initial : fp := mkFP false false 0 false None.

(** [ctx.drawImage] on the capture canvas succeeds or throws. *)
Inductive capture := CaptureOk | CaptureThrows (e : string).

(** How [detectFaces(frame)] settles: fulfilled with [{ faces, count }] (the
    landmarks of each detected face, and their number), or rejected. *)
Inductive detection :=
| DetOk (count : float) (faces : list (list lval))
| DetThrows (e : string).

Inductive input : Type :=
| Tick (readyState : option nat) (now : float) (c : capture)
    (** [None]: no video element *)
| DetectSettled (d : detection) (imageData : sum (list Z) string) (now : float)
    (** [imageData]: the RGBA bytes [ctx.getImageData] returns, or its exception *)
| Start
| Stop
| Cleanup.

Inductive output : Type :=
| OnAnalysis (o : jsobject)
| OnDisabled (reason : string)
| OnError (cause : string).

(** [data[i]] of the pixel array as a number; out of range is [undefined],
    which arithmetic turns into NaN. *)
Definition byte_at (data : list Z) (i : nat) : float :=
  match nth_error data i with
  | Some v => PrimFloat.of_uint63 (Uint63.of_Z v)
  | None => PrimFloat.nan
  end.

(** The sampling loop [for (i = 0; i < data.length; i += 4 * sampleStep)]. *)
Fixpoint brightness_loop (fuel : nat) (data : list Z) (i : nat)
    (totalBrightness : float) (sampleCount : nat) : float * nat :=
  match fuel with
  | O => (totalBrightness, sampleCount)
  | S fuel' =>
      if i <? List.length data then
        let r := byte_at data i in
        let g := byte_at data (i + 1) in
        let b := byte_at data (i + 2) in
        brightness_loop fuel' data (i + 4 * 10)
          (totalBrightness + (0.299 * r + 0.587 * g + 0.114 * b))%float
          (S sampleCount)
      else (totalBrightness, sampleCount)
  end.

Definition calculateBrightness (data : list Z) : float :=
  let '(totalBrightness, sampleCount) :=
    brightness_loop (S (List.length data)) data 0 0%float 0 in
  if 0 <? sampleCount then (totalBrightness / num_of_nat sampleCount)%float
  else 0%float.

Definition stop (s : fp) : fp :=
  mkFP false (isProcessing s) (consecutiveOverruns s) (isDisabled s) (pending s).

Definition start (s : fp) : fp :=
  if intervalId s then s
  else mkFP true (isProcessing s) 0 false (pending s).

(** [disable(reason)]: [isDisabled = true; stop(); onDisabled(reason)]. *)
Definition disable (s : fp) (reason : string) : fp * list output :=
  (stop (mkFP (intervalId s) (isProcessing s) (consecutiveOverruns s) true (pending s)),
   [OnDisabled reason]).

(** The [finally] block: [isProcessing = false]; the activation ends. *)
Definition finish (s : fp) : fp :=
  mkFP (intervalId s) false (consecutiveOverruns s) (isDisabled s) None.

(** [processFrame] up to the [await]. *)
Definition processFrame_begin (s : fp) (readyState : option nat) (now : float)
    (c : capture) : fp * list output :=
  if isProcessing s || isDisabled s then (s, [])
  else match readyState with
  | None => (s, [])
  | Some rs =>
      if rs <? 2 then (s, [])
      else
        let startTime := now in
        let s1 := mkFP (intervalId s) true (consecutiveOverruns s) (isDisabled s) (Some startTime) in
        match c with
        | CaptureThrows e => (finish s1, [OnError e])
        | CaptureOk => (s1, [])
        end
  end.

(** [processFrame] after the [await], with [startTime]. *)
Definition processFrame_resume (s : fp) (startTime : float) (d : detection)
    (imageData : sum (list Z) string) (now : float) : fp * list output :=
  match d with
  | DetThrows e => (finish s, [OnError e])
  | DetOk count _ =>
      match imageData with
      | inr e => (finish s, [OnError e])
      | inl data =>
          let brightness := calculateBrightness data in
          let processingTime := (now - startTime)%float in
          if PrimFloat.ltb MAX_PROCESSING_MS processingTime then
            let s1 := mkFP (intervalId s) (isProcessing s) (S (consecutiveOverruns s))
                        (isDisabled s) (pending s) in
            if MAX_CONSECUTIVE_OVERRUNS <=? consecutiveOverruns s1 then
              let '(s2, out) := disable s1 "Processing time exceeded budget" in
              (finish s2, out)
            else
              (finish s1, [OnAnalysis [("faceCount", JNum count);
                                       ("brightness", JNum brightness);
                                       ("processingTime", JNum processingTime)]])
          else
            let s1 := mkFP (intervalId s) (isProcessing s) 0 (isDisabled s) (pending s) in
            (finish s1, [OnAnalysis [("faceCount", JNum count);
                                     ("brightness", JNum brightness);
                                     ("processingTime", JNum processingTime)]])
      end
  end.

Definition step (s : fp) (i : input) : fp * list output :=
  match i with
  | Tick rs now c =>
      (* the interval only fires while it is set *)
      if intervalId s then processFrame_begin s rs now c else (s, [])
  | DetectSettled d img now =>
      match pending s with
      | Some startTime => processFrame_resume s startTime d img now
      | None => (s, [])
      end
  | Start => (start s, [])
  | Stop => (stop s, [])
  | Cleanup => (stop s, [])   (* canvas and detector release are outside this state *)
  end.

Fixpoint run (s : fp) (is : list input) : fp * list output :=
  match is with
  | [] => (s, [])
  | i :: is' =>
      let '(s1, o1) := step s i in
      let '(s2, o2) := run s1 is' in
      (s2, app o1 o2)
  end.

(** A full cycle: the tick, then the detector settling. *)
Definition cycle (rs : nat) (t0 : float) (d : detection) (img : sum (list Z) string)
    (t1 : float) : list input :=
  [Tick (Some rs) t0 CaptureOk; DetectSettled d img t1].

(** The object [getStatus()] returns. *)
Module Status.
Record t := mk {
  isRunning : bool;
  isProcessing : bool;
  isDisabled : bool;
  consecutiveOverruns : nat }.
End Status.

Definition getStatus (s : fp) : Status.t :=
  Status.mk (intervalId s) (isProcessing s) (isDisabled s) (consecutiveOverruns s).

(** A cycle that completes: the video is ready, the capture and the detector
    succeed and the pixels are read. *)
Record completed := mkCompleted {
  c_readyState : nat;
  c_start : float;
  c_count : float;
  c_faces : list (list lval);
  c_pixels : list Z;
  c_end : float }.

Definition completed_inputs (c : completed) : list input :=
  cycle (c_readyState c) (c_start c) (DetOk (c_count c) (c_faces c)) (inl (c_pixels c))
    (c_end c).

Definition overran (c : completed) : bool :=
  PrimFloat.ltb MAX_PROCESSING_MS (c_end c - c_start c)%float.

(** The number of cycles at the end of the list that overran, one after the
    other. *)
Definition trailing_overruns (cs : list completed) : nat :=
  fold_left (fun n c => if overran c then S n else 0) cs 0.

End FrameProcessor.

(** ** The detector adapter's singleton (src/unnamed/part_001, [faceAnalyzer.js])

    [initializeLandmarker] keeps [landmarkerInstance] and [initPromise] in
    module variables. Loading is asynchronous: [Call] is a [detectFaces] call
    entering [initializeLandmarker]; [Settle ok] is the loading IIFE finishing,
    with success or failure; [Cleanup] is [cleanup()]. [loading] records
    whether a loading IIFE is still running. The first version
    (src/unnamed/part_000, with [FaceDetector]) has the same structure. *)
Module FaceAnalyzer.

(** [initPromise]: [null], the promise of a running load, or the promise of
    a load that succeeded. (A failed load sets it back to [null].) *)
Inductive promise := PNull | PPending | PResolved.

Record st := mkSt {
  landmarkerInstance : bool;   (** [landmarkerInstance !== null] *)
  initPromise : promise;
  loading : bool }.

Definition initial : st := mkSt false PNull false.

Inductive ev := Call | Settle (ok : bool) | Cleanup.

Inductive out :=
| UseInstance     (** the instance is returned at once *)
| AwaitLoad       (** the caller awaits the running load *)
| LoadStarted     (** [FilesetResolver.forVisionTasks] and [createFromOptions] begin *)
| Loaded
| LoadFailed
| Closed.         (** [landmarkerInstance.close()] *)

Definition isInitialized (s : st) : bool := landmarkerInstance s.

Definition step (s : st) (e : ev) : st * list out :=
  match e with
  | Call =>
      if landmarkerInstance s then (s, [UseInstance])
      else match initPromise s with
           | PNull => (mkSt false PPending true, [LoadStarted])
           | _ => (s, [AwaitLoad])
           end
  | Settle ok =>
      if loading s then
        (* the running load's promise, held in [initPromise], now resolves *)
        if ok then
          (mkSt true (match initPromise s with PPending => PResolved | p => p end) false,
           [Loaded])
        else (mkSt (landmarkerInstance s) PNull false, [LoadFailed])
      else (s, [])
  | Cleanup =>
      if landmarkerInstance s then (mkSt false PNull (loading s), [Closed])
      else (s, [])
  end.

Fixpoint run (s : st) (es : list ev) : st * list out :=
  match es with
  | [] => (s, [])
  | e :: es' =>
      let '(s1, o1) := step s e in
      let '(s2, o2) := run s1 es' in
      (s2, app o1 o2)
  end.

Definition count_out (p : out -> bool) (os : list out) : nat := List.length (filter p os).

Definition is_started (o : out) : bool := match o with LoadStarted => true | _ => false end.
Definition is_settled (o : out) : bool :=
  match o with Loaded | LoadFailed => true | _ => false end.

End FaceAnalyzer.

(** ** Concrete inputs used by the examples below *)
Module Fixtures.

Definition pt (a b : float) : lval := LPoint (mkPoint a b 0).

(** 478 landmarks, all at the centre of the frame. *)
Definition flat_face : list lval := repeat (pt 0.5 0.5) 478.

(** 478 landmarks: the right eye collapsed to one point (zero width, zero
    height), the left eye open (width and height 0.2) with its iris on the
    lower eyelid. *)
Definition collapsed_right_eye_face : list lval :=
  map (fun i =>
         if i =? Gaze.LEFT_EYE_INNER then pt 0.4 0.5
         else if i =? Gaze.LEFT_EYE_OUTER then pt 0.6 0.5
         else if i =? Gaze.LEFT_EYE_TOP then pt 0.5 0.4
         else if i =? Gaze.LEFT_EYE_BOTTOM then pt 0.5 0.6
         else if i =? Gaze.LEFT_IRIS then pt 0.5 0.6
         else pt 0.5 0.5)
      (seq 0 478).

(** One frame of 2x1 RGBA pixels. *)
Definition grey_pixels : list Z := [100; 100; 100; 255; 100; 100; 100; 255]%Z.

(** Start the processor, then one tick and its detection: one face with the
    478 landmarks of [flat_face], settling 50 ms after the tick. *)
Definition one_cycle : list FrameProcessor.input :=
  FrameProcessor.Start
  :: FrameProcessor.cycle 4 0 (FrameProcessor.DetOk 1 [flat_face]) (inl grey_pixels) 50.

End Fixtures.

(** * Proofs *)

(** ** Comparisons of non-NaN floats *)
Module FloatFacts.

Lemma SFcompare_antisym (u v : SpecFloat.spec_float) :
  SpecFloat.SFcompare u v = option_map CompOpp (SpecFloat.SFcompare v u).
Proof.
  destruct u as [su|su| |su mu eu], v as [sv|sv| |sv mv ev]; simpl; auto;
    try (destruct su; destruct sv; reflexivity);
    try (destruct su; reflexivity); try (destruct sv; reflexivity).
  pose proof (Pos.compare_cont_antisym mv mu Eq) as A; simpl in A.
  destruct su, sv; simpl; auto;
    rewrite (Z.compare_antisym ev eu);
    match goal with |- context [Z.compare ?a ?b] => destruct (Z.compare a b) end;
    simpl; auto; rewrite <- A; try rewrite CompOpp_involutive; reflexivity.
Qed.

Lemma Prim2SF_not_nan (x : float) :
  PrimFloat.is_nan x = false -> FloatOps.Prim2SF x <> SpecFloat.S754_nan.
Proof.
  unfold PrimFloat.is_nan. rewrite FloatAxioms.eqb_spec.
  intros H E. rewrite E in H. discriminate H.
Qed.

(** [x < y] is the negation of [y <= x] when neither is NaN. *)
Lemma ltb_negb_leb (x y : float) :
  PrimFloat.is_nan x = false -> PrimFloat.is_nan y = false ->
  PrimFloat.ltb x y = negb (PrimFloat.leb y x).
Proof.
  intros Hx Hy.
  rewrite FloatAxioms.ltb_spec, FloatAxioms.leb_spec.
  unfold SpecFloat.SFltb, SpecFloat.SFleb.
  rewrite (SFcompare_antisym (FloatOps.Prim2SF x)).
  pose proof (Prim2SF_not_nan x Hx) as Nx. pose proof (Prim2SF_not_nan y Hy) as Ny.
  assert (Hc : SpecFloat.SFcompare (FloatOps.Prim2SF y) (FloatOps.Prim2SF x) <> None).
  { destruct (FloatOps.Prim2SF x) as [| | |], (FloatOps.Prim2SF y) as [| | |];
      simpl; congruence. }
  destruct (SpecFloat.SFcompare (FloatOps.Prim2SF y) (FloatOps.Prim2SF x)) as [[| |]|];
    simpl; congruence.
Qed.

End FloatFacts.

(** ** The flag aggregator *)
Module FlagProofs.
Import FlagManager.

Lemma processAnalysis_fields (now : float) (st : state) (a : Analysis.t) :
  currentFlags (processAnalysis now st a) =
    app (face_flags st a)
      (if PrimFloat.ltb (Analysis.brightness a) LOW_LIGHT_THRESHOLD then ["LOW_LIGHT"] else [])
  /\ consecutiveMissing (processAnalysis now st a) = snd (fst (face_branch st a))
  /\ gazeDirection (processAnalysis now st a) = snd (face_branch st a).
Proof.
  unfold processAnalysis, face_flags.
  destruct (face_branch st a) as [[f c] g]; simpl; auto.
Qed.

Lemma processAnalysis_history (now : float) (st : state) (a : Analysis.t) :
  history (processAnalysis now st a) = history st
  \/ (exists e, history (processAnalysis now st a) = app (slice_last19 (history st)) [e])
     /\ (arraysEqual (currentFlags st) (currentFlags (processAnalysis now st a)) = false
         \/ (Analysis.isLookingAway a = true
             /\ gval_eqb (gazeDirection st) (gazeDirection (processAnalysis now st a)) = false)).
Proof.
  unfold processAnalysis.
  destruct (face_branch st a) as [[f c] g]; simpl.
  match goal with |- context [if ?b then _ else _] => destruct b eqn:E end.
  - right. split; [eexists; reflexivity|].
    apply orb_true_iff in E as [E|E].
    + left. apply negb_true_iff in E. exact E.
    + right. apply andb_true_iff in E as [E1 E2]. apply negb_true_iff in E2. auto.
  - left. reflexivity.
Qed.

Lemma face_flags_cases (st : state) (a : Analysis.t) :
  In (face_flags st a)
    [[]; ["MULTIPLE_FACES"]; ["FACE_MISSING"]; ["FACE_ROTATED"]; ["GAZE_AWAY"]; ["FACE_OK"]].
Proof.
  unfold face_flags, face_branch.
  destruct (1 <? Analysis.faceCount a); [simpl; tauto|].
  destruct (Analysis.faceCount a =? 0);
    [destruct (FACE_MISSING_THRESHOLD <=? S (consecutiveMissing st)); simpl; tauto|].
  destruct (Analysis.isRotated a); [simpl; tauto|].
  destruct (Analysis.isLookingAway a); simpl; tauto.
Qed.

Lemma currentFlags_shape (now : float) (st : state) (a : Analysis.t) :
  In (currentFlags (processAnalysis now st a)) flag_shapes.
Proof.
  destruct (processAnalysis_fields now st a) as [-> _].
  pose proof (face_flags_cases st a) as H.
  destruct (PrimFloat.ltb (Analysis.brightness a) LOW_LIGHT_THRESHOLD);
    simpl in H; unfold flag_shapes; simpl;
    repeat (destruct H as [<- | H]; [simpl; tauto|]); contradiction.
Qed.

(** What holds of every state reached from [createInitialState]. *)
Lemma run_preserves (P : state -> Prop)
    (Hstep : forall now st a, P st -> P (processAnalysis now st a)) :
  forall xs st, P st -> P (run st xs).
Proof.
  induction xs as [|[now a] xs IH]; intros st H; simpl; auto.
Qed.

Lemma reachable_shape (xs : list (float * Analysis.t)) :
  In (currentFlags (run createInitialState xs)) flag_shapes.
Proof.
  apply (run_preserves (fun st => In (currentFlags st) flag_shapes)).
  - intros. apply currentFlags_shape.
  - simpl. auto.
Qed.

Lemma slice_last19_length {A} (l : list A) : List.length (slice_last19 l) <= 19.
Proof. unfold slice_last19. rewrite length_skipn. lia. Qed.

Lemma history_step_bound (now : float) (st : state) (a : Analysis.t) :
  List.length (history st) <= 20 -> List.length (history (processAnalysis now st a)) <= 20.
Proof.
  intros H.
  destruct (processAnalysis_history now st a) as [-> | [[e ->] _]]; auto.
  rewrite length_app. simpl. pose proof (slice_last19_length (history st)). lia.
Qed.

Lemma reachable_history_bound (xs : list (float * Analysis.t)) :
  List.length (history (run createInitialState xs)) <= 20.
Proof.
  apply (run_preserves (fun st => List.length (history st) <= 20)).
  - intros. apply history_step_bound. assumption.
  - simpl. lia.
Qed.

Lemma set_eqb_complete (a b : list string) :
  (forall f, In f a <-> In f b) -> set_eqb a b = true.
Proof.
  intros H. unfold set_eqb. apply andb_true_iff. split; apply forallb_forall;
    intros f Hf; apply existsb_exists; exists f; rewrite String.eqb_refl; split; auto;
    apply H; auto.
Qed.

Lemma shapes_set_eq_arraysEqual :
  forallb (fun a => forallb (fun b => implb (set_eqb a b) (arraysEqual a b)) flag_shapes)
    flag_shapes = true.
Proof. vm_compute. reflexivity. Qed.

Lemma arraysEqual_of_set_eq (a b : list string) :
  In a flag_shapes -> In b flag_shapes ->
  (forall f, In f a <-> In f b) -> arraysEqual a b = true.
Proof.
  intros Ha Hb Hs.
  pose proof shapes_set_eq_arraysEqual as C.
  rewrite forallb_forall in C. specialize (C a Ha).
  rewrite forallb_forall in C. specialize (C b Hb).
  rewrite (set_eqb_complete a b Hs) in C. exact C.
Qed.

Lemma missing_step (now : float) (st : state) (a : Analysis.t) :
  Analysis.faceCount a = 0 ->
  consecutiveMissing (processAnalysis now st a) = S (consecutiveMissing st)
  /\ (In "FACE_MISSING" (currentFlags (processAnalysis now st a))
      <-> 3 <= S (consecutiveMissing st)).
Proof.
  intros H0.
  destruct (processAnalysis_fields now st a) as [-> [-> _]].
  unfold face_flags, face_branch. rewrite H0.
  destruct (Nat.leb_spec FACE_MISSING_THRESHOLD (S (consecutiveMissing st))) as [L|L];
    unfold FACE_MISSING_THRESHOLD in L;
    destruct (PrimFloat.ltb (Analysis.brightness a) LOW_LIGHT_THRESHOLD); simpl;
    (split; [reflexivity| split; intro Hx;
    [ repeat match goal with H : _ \/ _ |- _ => destruct H end;
      try discriminate; try contradiction; lia
    | try lia; simpl; auto ]]).
Qed.

Lemma present_step (now : float) (st : state) (a : Analysis.t) :
  1 <= Analysis.faceCount a ->
  consecutiveMissing (processAnalysis now st a) = 0
  /\ ~ In "FACE_MISSING" (currentFlags (processAnalysis now st a)).
Proof.
  intros H1.
  destruct (processAnalysis_fields now st a) as [-> [-> _]].
  unfold face_flags, face_branch.
  destruct (Nat.eqb_spec (Analysis.faceCount a) 0) as [E|E]; [lia|].
  destruct (1 <? Analysis.faceCount a); [|destruct (Analysis.isRotated a);
    [|destruct (Analysis.isLookingAway a)]];
  destruct (PrimFloat.ltb (Analysis.brightness a) LOW_LIGHT_THRESHOLD); simpl;
    split; auto; intros H;
    repeat match goal with H : _ \/ _ |- _ => destruct H end; try discriminate; tauto.
Qed.

(** C4: on the face counts [1,1,0,0,0,1] from the initial state,
    FACE_MISSING is absent after the first and second zero, present after the
    third, and [consecutiveMissing] is back to 0 after the final 1 (whatever
    the other fields of the samples and the clock); in general a face count of
    0 increments [consecutiveMissing] and raises FACE_MISSING exactly when the
    incremented counter is at least 3. *)
Theorem processAnalysis_face_missing_debounce :
  (forall (n1 n2 n3 n4 n5 n6 : float) (a1 a2 a3 a4 a5 a6 : Analysis.t),
     map Analysis.faceCount [a1; a2; a3; a4; a5; a6] = [1; 1; 0; 0; 0; 1] ->
     match trace createInitialState
             [(n1, a1); (n2, a2); (n3, a3); (n4, a4); (n5, a5); (n6, a6)] with
     | [_; _; s3; s4; s5; s6] =>
         ~ In "FACE_MISSING" (currentFlags s3) /\ ~ In "FACE_MISSING" (currentFlags s4)
         /\ In "FACE_MISSING" (currentFlags s5) /\ consecutiveMissing s6 = 0
     | _ => False
     end)
  /\ (forall (now : float) (st : state) (a : Analysis.t),
        Analysis.faceCount a = 0 ->
        consecutiveMissing (processAnalysis now st a) = S (consecutiveMissing st)
        /\ (In "FACE_MISSING" (currentFlags (processAnalysis now st a))
            <-> FACE_MISSING_THRESHOLD <= S (consecutiveMissing st))).
Proof.
  split; [|exact missing_step].
  intros n1 n2 n3 n4 n5 n6 a1 a2 a3 a4 a5 a6 H.
  simpl in H. injection H as H1 H2 H3 H4 H5 H6.
  simpl trace.
  set (s1 := processAnalysis n1 createInitialState a1).
  set (s2 := processAnalysis n2 s1 a2).
  set (s3 := processAnalysis n3 s2 a3).
  set (s4 := processAnalysis n4 s3 a4).
  set (s5 := processAnalysis n5 s4 a5).
  set (s6 := processAnalysis n6 s5 a6).
  destruct (present_step n1 createInitialState a1 ltac:(lia)) as [C1 _].
  destruct (present_step n2 s1 a2 ltac:(lia)) as [C2 _].
  destruct (missing_step n3 s2 a3 H3) as [C3 F3].
  destruct (missing_step n4 s3 a4 H4) as [C4 F4].
  destruct (missing_step n5 s4 a5 H5) as [C5 F5].
  destruct (present_step n6 s5 a6 ltac:(lia)) as [C6 _].
  fold s1 s2 s3 s4 s5 s6 in C1, C2, C3, C4, C5, C6, F3, F4, F5.
  rewrite F3, F4, F5. rewrite C4, C3, C2. repeat split; lia.
Qed.

(** C5: along every sequence of samples from the initial state, the history
    holds at most 20 entries; a call either keeps the history or appends one
    entry after the last 19 kept ones (the oldest are dropped first); and a
    call whose flag set equals the previous one as an unordered set, with the
    stored gaze direction unchanged when the sample is looking away, appends
    nothing. *)
Theorem processAnalysis_history_bounded :
  forall (xs : list (float * Analysis.t)) (now : float) (a : Analysis.t),
    let st := run createInitialState xs in
    let st' := processAnalysis now st a in
    List.length (history st) <= 20
    /\ List.length (history st') <= 20
    /\ (history st' = history st
        \/ exists e, history st' = app (skipn (List.length (history st) - 19) (history st)) [e])
    /\ ((forall f, In f (currentFlags st) <-> In f (currentFlags st')) ->
        Analysis.isLookingAway a = false \/ gval_eqb (gazeDirection st) (gazeDirection st') = true ->
        history st' = history st).
Proof.
  intros xs now a. cbv zeta.
  pose proof (reachable_history_bound xs) as B.
  set (st := run createInitialState xs) in *.
  split; [exact B|].
  split; [apply history_step_bound; exact B|].
  split.
  - destruct (processAnalysis_history now st a) as [E | [[e E] _]]; [left; exact E|].
    right. exists e. exact E.
  - intros Hset Hgaze.
    destruct (processAnalysis_history now st a) as [E | [_ [Hc | [Hl Hg]]]]; [exact E| |].
    + assert (R : In (currentFlags st) flag_shapes) by apply reachable_shape.
      rewrite (arraysEqual_of_set_eq _ _ R (currentFlags_shape now st a) Hset) in Hc.
      discriminate.
    + destruct Hgaze as [Hgaze | Hgaze]; congruence.
Qed.

(** C9: the new flag set is the face-presence branch's flags (which never
    contain LOW_LIGHT and do not depend on the brightness) followed by
    LOW_LIGHT exactly when [brightness < 50]; brightness exactly 50 gives no
    LOW_LIGHT. *)
Theorem processAnalysis_low_light :
  forall (now : float) (st : state) (a : Analysis.t),
    currentFlags (processAnalysis now st a) =
      app (face_flags st a)
        (if PrimFloat.ltb (Analysis.brightness a) 50 then ["LOW_LIGHT"] else [])
    /\ ~ In "LOW_LIGHT" (face_flags st a)
    /\ (forall b, face_flags st (Analysis.mk (Analysis.faceCount a) (Analysis.isRotated a)
                     (Analysis.isLookingAway a) (Analysis.gazeDirection a) b)
                  = face_flags st a)
    /\ (In "LOW_LIGHT" (currentFlags (processAnalysis now st a))
        <-> PrimFloat.ltb (Analysis.brightness a) 50 = true)
    /\ (Analysis.brightness a = 50%float ->
        ~ In "LOW_LIGHT" (currentFlags (processAnalysis now st a))).
Proof.
  intros now st a.
  destruct (processAnalysis_fields now st a) as [E _].
  assert (NL : ~ In "LOW_LIGHT" (face_flags st a)).
  { pose proof (face_flags_cases st a) as H. simpl in H.
    repeat (destruct H as [<- | H]; [simpl; intros J;
      repeat match goal with J : _ \/ _ |- _ => destruct J end; try discriminate; tauto|]).
    contradiction. }
  assert (LL : In "LOW_LIGHT" (currentFlags (processAnalysis now st a))
               <-> PrimFloat.ltb (Analysis.brightness a) 50 = true).
  { rewrite E. unfold LOW_LIGHT_THRESHOLD.
    destruct (PrimFloat.ltb (Analysis.brightness a) 50); rewrite in_app_iff; simpl;
      split; intros H; auto; try discriminate.
    destruct H as [H|H]; [contradiction|tauto]. }
  split; [exact E|]. split; [exact NL|]. split; [reflexivity|]. split; [exact LL|].
  intros Hb J. apply LL in J. rewrite Hb in J. discriminate J.
Qed.

(** C10: the flag set holds only status flags and LOW_LIGHT, at most one
    status flag and at most two flags; for a brightness that is a number (not
    NaN), it is empty exactly when the face count is 0, the incremented
    [consecutiveMissing] is below 3 and the brightness is at least 50. *)
Theorem processAnalysis_flag_shape :
  forall (now : float) (st : state) (a : Analysis.t),
    PrimFloat.is_nan (Analysis.brightness a) = false ->
    let fl := currentFlags (processAnalysis now st a) in
    (forall f, In f fl -> is_status f = true \/ f = "LOW_LIGHT")
    /\ List.length (filter is_status fl) <= 1
    /\ List.length fl <= 2
    /\ (fl = [] <->
        Analysis.faceCount a = 0 /\ S (consecutiveMissing st) < 3
        /\ PrimFloat.leb 50 (Analysis.brightness a) = true).
Proof.
  intros now st a Hnan fl.
  assert (Hle : PrimFloat.leb 50 (Analysis.brightness a)
                = negb (PrimFloat.ltb (Analysis.brightness a) 50)).
  { rewrite (FloatFacts.ltb_negb_leb (Analysis.brightness a) 50 Hnan (eq_refl false)).
    rewrite negb_involutive. reflexivity. }
  rewrite Hle. unfold fl.
  destruct (processAnalysis_fields now st a) as [-> _].
  unfold face_flags, face_branch, LOW_LIGHT_THRESHOLD, FACE_MISSING_THRESHOLD.
  destruct (Nat.ltb_spec 1 (Analysis.faceCount a)) as [M|M];
  [|destruct (Nat.eqb_spec (Analysis.faceCount a) 0) as [Z0|Z0];
    [destruct (Nat.leb_spec 3 (S (consecutiveMissing st))) as [T|T]
    |destruct (Analysis.isRotated a); [|destruct (Analysis.isLookingAway a)]]];
  destruct (PrimFloat.ltb (Analysis.brightness a) 50); simpl;
  (split; [intros f Hf; repeat destruct Hf as [<- | Hf];
           (contradiction || (right; reflexivity) || (left; reflexivity))|]);
  (split; [auto|]); (split; [auto|]);
  split; intros H; try discriminate; try (destruct H as [H1 H2]; try lia; discriminate);
  try reflexivity.
Qed.

End FlagProofs.

(** ** The geometry estimators *)
Module GeometryProofs.
Import Rotation Gaze.

Lemma distance_ok (p q : lval) : exists d, distance p q = Ok d.
Proof. unfold distance. destruct p, q; simpl; eexists; reflexivity. Qed.

Lemma distance_points (p q : point) :
  distance (LPoint p) (LPoint q)
  = Ok (PrimFloat.sqrt ((x p - x q) * (x p - x q) + (y p - y q) * (y p - y q)))%float.
Proof. reflexivity. Qed.

Ltac ok_if :=
  repeat match goal with
         | |- exists _, (if ?b then _ else _) = Ok _ => destruct b
         | |- exists _, Ok _ = Ok _ => eexists; reflexivity
         end.

Lemma estimateYaw_ok (l : list lval) : exists s, estimateYaw l = Ok s.
Proof.
  unfold estimateYaw. cbv zeta.
  destruct (falsy (at_ l NOSE_TIP) || falsy (at_ l LEFT_EAR) || falsy (at_ l RIGHT_EAR));
    [eexists; reflexivity|].
  destruct (distance_ok (at_ l NOSE_TIP) (at_ l LEFT_EAR)) as [dl ->].
  destruct (distance_ok (at_ l NOSE_TIP) (at_ l RIGHT_EAR)) as [dr ->].
  simpl. ok_if.
Qed.

Lemma estimateRoll_ok (l : list lval) : exists s, estimateRoll l = Ok s.
Proof.
  unfold estimateRoll. cbv zeta.
  destruct (at_ l Rotation.LEFT_EYE_OUTER) as [| |pl] eqn:El; [eexists; reflexivity..|].
  destruct (at_ l Rotation.RIGHT_EYE_OUTER) as [| |pr] eqn:Er; [eexists; reflexivity..|].
  simpl. ok_if.
Qed.

Lemma analyzeRotation_full (l : list lval) :
  478 <= List.length l ->
  exists yw rl, estimateYaw l = Ok yw /\ estimateRoll l = Ok rl
    /\ analyzeRotation (Some l) = Ok (mkRotation yw rl (negb (String.eqb yw "CENTER"))).
Proof.
  intros H.
  destruct (estimateYaw_ok l) as [yw Hy]. destruct (estimateRoll_ok l) as [rl Hr].
  exists yw, rl. split; [exact Hy|]. split; [exact Hr|].
  unfold analyzeRotation.
  destruct (Nat.ltb_spec (List.length l) 478) as [L|L]; [lia|].
  rewrite Hy, Hr. reflexivity.
Qed.

Lemma getHorizontalOffset_ok (iris inner outer : lval) :
  exists o, getHorizontalOffset iris inner outer = Ok o.
Proof.
  unfold getHorizontalOffset. destruct iris, inner, outer; simpl; eexists; reflexivity.
Qed.

Lemma getVerticalOffset_ok (iris top bottom : lval) (w : float) :
  exists v, getVerticalOffset iris top bottom w = Ok v.
Proof.
  unfold getVerticalOffset. destruct iris, top, bottom; simpl; ok_if.
Qed.

(** [analyzeGaze] on a full array, with the per-eye results it computes. *)
Lemma analyzeGaze_full (l : list lval) :
  478 <= List.length l ->
  exists rh lh rv lv,
    getHorizontalOffset (at_ l RIGHT_IRIS) (at_ l RIGHT_EYE_INNER) (at_ l RIGHT_EYE_OUTER) = Ok rh
    /\ getHorizontalOffset (at_ l LEFT_IRIS) (at_ l LEFT_EYE_INNER) (at_ l LEFT_EYE_OUTER) = Ok lh
    /\ getVerticalOffset (at_ l RIGHT_IRIS) (at_ l RIGHT_EYE_TOP) (at_ l RIGHT_EYE_BOTTOM)
         (PrimFloat.abs (opt_x_or0 (at_ l RIGHT_EYE_OUTER) - opt_x_or0 (at_ l RIGHT_EYE_INNER)))%float
       = Ok rv
    /\ getVerticalOffset (at_ l LEFT_IRIS) (at_ l LEFT_EYE_TOP) (at_ l LEFT_EYE_BOTTOM)
         (PrimFloat.abs (opt_x_or0 (at_ l LEFT_EYE_OUTER) - opt_x_or0 (at_ l LEFT_EYE_INNER)))%float
       = Ok lv
    /\ analyzeGaze (Some l) =
       (let avgHorizontal := ((rh + lh) / 2)%float in
        let verticalValid := valid rv && valid lv in
        let avgVertical :=
          if verticalValid then ((offset rv + offset lv) / 2)%float else 0%float in
        let horizontalGaze :=
          if PrimFloat.ltb avgHorizontal (- HORIZONTAL_THRESHOLD)%float then "LEFT"
          else if PrimFloat.ltb HORIZONTAL_THRESHOLD avgHorizontal then "RIGHT"
          else "CENTER" in
        let verticalGaze :=
          if verticalValid then
            if PrimFloat.ltb avgVertical (- VERTICAL_THRESHOLD)%float then "UP"
            else if PrimFloat.ltb VERTICAL_THRESHOLD avgVertical then "DOWN"
            else "CENTER"
          else "CENTER" in
        let directions :=
          app (if negb (String.eqb verticalGaze "CENTER") then [verticalGaze] else [])
              (if negb (String.eqb horizontalGaze "CENTER") then [horizontalGaze] else []) in
        let gazeDirection :=
          if Nat.ltb 0 (List.length directions) then String.concat "_" directions
          else "CENTER" in
        let isLookingAway :=
          negb (String.eqb horizontalGaze "CENTER") || negb (String.eqb verticalGaze "CENTER") in
        let hDiff := PrimFloat.abs (rh - lh)%float in
        let vDiff :=
          if verticalValid then PrimFloat.abs (offset rv - offset lv)%float else 0%float in
        Ok (mkGaze horizontalGaze verticalGaze gazeDirection isLookingAway
              (js_max 0 (1 - (hDiff + vDiff))%float)
              (Some (mkDetails rh lh avgHorizontal (offset rv) (offset lv) avgVertical
                       verticalValid)))).
Proof.
  intros H.
  destruct (getHorizontalOffset_ok (at_ l RIGHT_IRIS) (at_ l RIGHT_EYE_INNER)
              (at_ l RIGHT_EYE_OUTER)) as [rh Hrh].
  destruct (getHorizontalOffset_ok (at_ l LEFT_IRIS) (at_ l LEFT_EYE_INNER)
              (at_ l LEFT_EYE_OUTER)) as [lh Hlh].
  destruct (getVerticalOffset_ok (at_ l RIGHT_IRIS) (at_ l RIGHT_EYE_TOP) (at_ l RIGHT_EYE_BOTTOM)
    (PrimFloat.abs (opt_x_or0 (at_ l RIGHT_EYE_OUTER) - opt_x_or0 (at_ l RIGHT_EYE_INNER)))%float)
    as [rv Hrv].
  destruct (getVerticalOffset_ok (at_ l LEFT_IRIS) (at_ l LEFT_EYE_TOP) (at_ l LEFT_EYE_BOTTOM)
    (PrimFloat.abs (opt_x_or0 (at_ l LEFT_EYE_OUTER) - opt_x_or0 (at_ l LEFT_EYE_INNER)))%float)
    as [lv Hlv].
  exists rh, lh, rv, lv.
  do 4 (split; [assumption|]).
  unfold analyzeGaze.
  destruct (Nat.ltb_spec (List.length l) 478) as [L|L]; [lia|].
  cbv zeta. rewrite Hrh, Hlh, Hrv, Hlv. reflexivity.
Qed.

End GeometryProofs.

Module GeometryClaims.
Import Rotation Gaze GeometryProofs Fixtures.

(** C6: on a full array, [isRotated] is [yaw <> CENTER]; a missing nose or
    ear gives CENTER; otherwise, with [dl = distance(nose, leftEar)] and
    [dr = distance(nose, rightEar)], a zero distance gives CENTER, and
    [ratio = dr / dl] gives LEFT when [ratio < 0.6], RIGHT when
    [ratio > 1/0.6], CENTER otherwise; ratio exactly 0.6 gives CENTER, and
    [dr = 40], [dl = 100] give LEFT. *)
Theorem analyzeRotation_yaw :
  forall l : list lval, 478 <= List.length l ->
  exists r, analyzeRotation (Some l) = Ok r
    /\ isRotated r = negb (String.eqb (yaw r) "CENTER")
    /\ (falsy (at_ l NOSE_TIP) || falsy (at_ l LEFT_EAR) || falsy (at_ l RIGHT_EAR) = true ->
        yaw r = "CENTER")
    /\ (forall dl dr,
          falsy (at_ l NOSE_TIP) || falsy (at_ l LEFT_EAR) || falsy (at_ l RIGHT_EAR) = false ->
          distance (at_ l NOSE_TIP) (at_ l LEFT_EAR) = Ok dl ->
          distance (at_ l NOSE_TIP) (at_ l RIGHT_EAR) = Ok dr ->
          ((PrimFloat.eqb dl 0 || PrimFloat.eqb dr 0) = true -> yaw r = "CENTER")
          /\ ((PrimFloat.eqb dl 0 || PrimFloat.eqb dr 0) = false ->
              (PrimFloat.ltb (dr / dl) 0.6 = true -> yaw r = "LEFT")
              /\ (PrimFloat.ltb (dr / dl) 0.6 = false ->
                  PrimFloat.ltb (1 / 0.6) (dr / dl) = true -> yaw r = "RIGHT")
              /\ (PrimFloat.ltb (dr / dl) 0.6 = false ->
                  PrimFloat.ltb (1 / 0.6) (dr / dl) = false -> yaw r = "CENTER")
              /\ ((dr / dl)%float = 0.6%float -> yaw r = "CENTER")
              /\ (dr = 40%float -> dl = 100%float -> yaw r = "LEFT"))).
Proof.
  intros l H.
  destruct (analyzeRotation_full l H) as [yw [rl [Hy [_ Ha]]]].
  eexists. split; [exact Ha|]. split; [reflexivity|]. cbn [Rotation.yaw].
  unfold estimateYaw in Hy. cbv zeta in Hy.
  split.
  - intros F. rewrite F in Hy. injection Hy as <-. reflexivity.
  - intros dl dr F Hl Hr. rewrite F, Hl, Hr in Hy. cbn [bind] in Hy.
    unfold YAW_THRESHOLD in Hy.
    split.
    + intros Z. rewrite Z in Hy. injection Hy as <-. reflexivity.
    + intros Z. rewrite Z in Hy.
      split; [intros L; rewrite L in Hy; injection Hy as <-; reflexivity|].
      split; [intros L R; rewrite L, R in Hy; injection Hy as <-; reflexivity|].
      split; [intros L R; rewrite L, R in Hy; injection Hy as <-; reflexivity|].
      split.
      * intros E. rewrite E in Hy. vm_compute in Hy. injection Hy as <-. reflexivity.
      * intros -> ->. vm_compute in Hy. injection Hy as <-. reflexivity.
Qed.

(** C7: on [null]/absent input or fewer than 478 landmarks, [analyzeRotation]
    returns UNKNOWN/UNKNOWN/not rotated and [analyzeGaze] returns UNKNOWN
    gazes and direction, not looking away, confidence 0; on every input both
    return normally (no property read on a missing landmark throws). *)
Theorem analyzers_short_input :
  (forall inp : input,
     (inp = None \/ exists l, inp = Some l /\ List.length l < 478) ->
     analyzeRotation inp = Ok (mkRotation "UNKNOWN" "UNKNOWN" false)
     /\ exists g, analyzeGaze inp = Ok g
          /\ horizontalGaze g = "UNKNOWN" /\ verticalGaze g = "UNKNOWN"
          /\ gazeDirection g = "UNKNOWN" /\ isLookingAway g = false
          /\ confidence g = 0%float)
  /\ (forall inp : input,
        (exists r, analyzeRotation inp = Ok r) /\ (exists g, analyzeGaze inp = Ok g)).
Proof.
  split.
  - intros inp [-> | [l [-> Hl]]].
    + split; [reflexivity|]. eexists. split; [reflexivity|]. repeat split.
    + unfold analyzeRotation, analyzeGaze.
      rewrite (proj2 (Nat.ltb_lt _ _) Hl).
      split; [reflexivity|]. eexists. split; [reflexivity|]. repeat split.
  - intros [l|]; [|split; eexists; reflexivity].
    destruct (Nat.ltb_spec (List.length l) 478) as [L|L].
    + unfold analyzeRotation, analyzeGaze. rewrite (proj2 (Nat.ltb_lt _ _) L).
      split; eexists; reflexivity.
    + destruct (analyzeRotation_full l L) as [yw [rl [_ [_ Ha]]]].
      destruct (analyzeGaze_full l L) as [rh [lh [rv [lv [_ [_ [_ [_ Hg]]]]]]]].
      split; eexists; [exact Ha|]. rewrite Hg. cbv zeta. reflexivity.
Qed.

(** C8 refuted: on [collapsed_right_eye_face] the right eye has zero width
    and zero height, so [eyeHeight / eyeWidth] is NaN and not [>= 0.02]; yet
    its vertical reading is valid, and with the left eye's reading the gaze is
    DOWN and looking away. *)
Lemma analyzeGaze_zero_width_eye_is_valid :
  at_ collapsed_right_eye_face RIGHT_EYE_TOP = pt 0.5 0.5
  /\ at_ collapsed_right_eye_face RIGHT_EYE_BOTTOM = pt 0.5 0.5
  /\ at_ collapsed_right_eye_face RIGHT_EYE_INNER = pt 0.5 0.5
  /\ at_ collapsed_right_eye_face RIGHT_EYE_OUTER = pt 0.5 0.5
  /\ PrimFloat.leb MIN_EYE_HEIGHT_RATIO
       (PrimFloat.abs (0.5 - 0.5) / PrimFloat.abs (0.5 - 0.5))%float = false
  /\ getVerticalOffset (at_ collapsed_right_eye_face RIGHT_IRIS)
       (at_ collapsed_right_eye_face RIGHT_EYE_TOP)
       (at_ collapsed_right_eye_face RIGHT_EYE_BOTTOM)
       (PrimFloat.abs (0.5 - 0.5))%float = Ok (mkV 0 true)
  /\ match analyzeGaze (Some collapsed_right_eye_face) with
     | Ok g => verticalGaze g = "DOWN" /\ gazeDirection g = "DOWN" /\ isLookingAway g = true
     | Throw _ => False
     end.
Proof. vm_compute. repeat split. Qed.

(** C8, as the code does it: a per-eye vertical reading is invalid when the
    iris or an eyelid is missing, and otherwise exactly when
    [eyeWidth > 0] and [eyeHeight / eyeWidth < 0.02] (an eye of zero width is
    not rejected); on a full array the averaged vertical offset counts only
    when both eyes are valid, else the vertical gaze is CENTER; with both
    valid, [avgVertical < -0.25] gives UP, [avgVertical > 0.25] gives DOWN,
    else CENTER; [gazeDirection] joins the non-center vertical then
    horizontal labels with [_], or is CENTER; and [isLookingAway] holds
    exactly when one of the two gazes is not CENTER. *)
Theorem analyzeGaze_vertical :
  (forall (iris top bottom : lval) (eyeWidth : float),
     falsy iris || falsy top || falsy bottom = true ->
     getVerticalOffset iris top bottom eyeWidth = Ok (mkV 0 false))
  /\ (forall (pi pt pb : point) (eyeWidth : float),
        exists v, getVerticalOffset (LPoint pi) (LPoint pt) (LPoint pb) eyeWidth = Ok v
          /\ valid v = negb (PrimFloat.ltb 0 eyeWidth
                             && PrimFloat.ltb (PrimFloat.abs (y pb - y pt) / eyeWidth) 0.02))
  /\ (forall l : list lval, 478 <= List.length l ->
        exists g rv lv,
          analyzeGaze (Some l) = Ok g
          /\ getVerticalOffset (at_ l RIGHT_IRIS) (at_ l RIGHT_EYE_TOP) (at_ l RIGHT_EYE_BOTTOM)
               (PrimFloat.abs (opt_x_or0 (at_ l RIGHT_EYE_OUTER)
                               - opt_x_or0 (at_ l RIGHT_EYE_INNER)))%float = Ok rv
          /\ getVerticalOffset (at_ l LEFT_IRIS) (at_ l LEFT_EYE_TOP) (at_ l LEFT_EYE_BOTTOM)
               (PrimFloat.abs (opt_x_or0 (at_ l LEFT_EYE_OUTER)
                               - opt_x_or0 (at_ l LEFT_EYE_INNER)))%float = Ok lv
          /\ (valid rv && valid lv = false -> verticalGaze g = "CENTER")
          /\ (valid rv && valid lv = true ->
              let avgVertical := ((offset rv + offset lv) / 2)%float in
              (PrimFloat.ltb avgVertical (-0.25) = true -> verticalGaze g = "UP")
              /\ (PrimFloat.ltb avgVertical (-0.25) = false ->
                  PrimFloat.ltb 0.25 avgVertical = true -> verticalGaze g = "DOWN")
              /\ (PrimFloat.ltb avgVertical (-0.25) = false ->
                  PrimFloat.ltb 0.25 avgVertical = false -> verticalGaze g = "CENTER"))
          /\ In (horizontalGaze g) ["LEFT"; "RIGHT"; "CENTER"]
          /\ In (verticalGaze g) ["UP"; "DOWN"; "CENTER"]
          /\ gazeDirection g =
               (if String.eqb (verticalGaze g) "CENTER" then
                  (if String.eqb (horizontalGaze g) "CENTER" then "CENTER" else horizontalGaze g)
                else if String.eqb (horizontalGaze g) "CENTER" then verticalGaze g
                else verticalGaze g ++ "_" ++ horizontalGaze g)
          /\ isLookingAway g = negb (String.eqb (horizontalGaze g) "CENTER")
                               || negb (String.eqb (verticalGaze g) "CENTER")).
Proof.
  split; [|split].
  - intros iris top bottom w F. unfold getVerticalOffset. rewrite F. reflexivity.
  - intros pi pt pb w. unfold getVerticalOffset. simpl.
    destruct (_ && _) eqn:E; eexists; split; try reflexivity; simpl; rewrite E; reflexivity.
  - intros l H.
    destruct (analyzeGaze_full l H) as [rh [lh [rv [lv [_ [_ [Hrv [Hlv Hg]]]]]]]].
    cbv zeta in Hg. eexists. exists rv, lv.
    split; [exact Hg|]. split; [exact Hrv|]. split; [exact Hlv|].
    unfold HORIZONTAL_THRESHOLD, VERTICAL_THRESHOLD. clear Hg.
    destruct (valid rv), (valid lv); simpl;
      repeat match goal with
             | |- context [PrimFloat.ltb ?a ?b] => destruct (PrimFloat.ltb a b)
             end;
      simpl; repeat split; intros; auto 6; try discriminate.
Qed.

End GeometryClaims.

Module SchedulerProofs.
Import FrameProcessor.

(** The object [processFrame] hands to [onAnalysis]. *)
Definition report (count brightness processingTime : float) : jsobject :=
  [("faceCount", JNum count); ("brightness", JNum brightness);
   ("processingTime", JNum processingTime)].

Ltac no_output E Hin :=
  injection E as _ <-; simpl in Hin;
  repeat (destruct Hin as [Hin|Hin]; [discriminate|]); contradiction.

(** A step emits an analysis only when the detector settles with a count and
    the pixels are read, and then the object is the three-field report. *)
Lemma step_analysis s i s1 o1 o :
  step s i = (s1, o1) -> In (OnAnalysis o) o1 ->
  exists count faces data now t0,
    i = DetectSettled (DetOk count faces) (inl data) now /\
    pending s = Some t0 /\
    o = report count (calculateBrightness data) (now - t0)%float.
Proof.
  intros E Hin.
  destruct i as [rs now c | d img now | | | ]; simpl in E.
  - destruct (intervalId s); [|no_output E Hin].
    unfold processFrame_begin in E.
    destruct (isProcessing s || isDisabled s); [no_output E Hin|].
    destruct rs as [rs|]; [|no_output E Hin].
    destruct (rs <? 2); [no_output E Hin|].
    destruct c; no_output E Hin.
  - destruct (pending s) as [t0|] eqn:P; [|no_output E Hin].
    unfold processFrame_resume in E.
    destruct d as [count faces|e]; [|no_output E Hin].
    destruct img as [data|e]; [|no_output E Hin].
    exists count, faces, data, now, t0. split; [reflexivity|]. split; [reflexivity|].
    destruct (PrimFloat.ltb MAX_PROCESSING_MS (now - t0)).
    + destruct (MAX_CONSECUTIVE_OVERRUNS <=? _); simpl in E.
      * no_output E Hin.
      * injection E as _ <-. destruct Hin as [Hin|[]].
        injection Hin as <-. reflexivity.
    + injection E as _ <-. destruct Hin as [Hin|[]].
      injection Hin as <-. reflexivity.
  - no_output E Hin.
  - no_output E Hin.
  - no_output E Hin.
Qed.

(** After [disable] the interval is cleared and no activation is pending, so no
    input but [start()] makes the processor do anything. *)
Lemma run_idle s rest :
  intervalId s = false -> pending s = None -> ~ In Start rest ->
  run s rest = (s, []).
Proof.
  revert s. induction rest as [|i rest IH]; intros s Hi Hp Hs; [reflexivity|].
  assert (Step : step s i = (s, [])).
  { destruct i; simpl.
    - rewrite Hi. reflexivity.
    - rewrite Hp. reflexivity.
    - exfalso. apply Hs. left. reflexivity.
    - destruct s; simpl in *; subst; reflexivity.
    - destruct s; simpl in *; subst; reflexivity. }
  simpl. rewrite Step, IH; auto.
  intro H. apply Hs. right. exact H.
Qed.

(** One completed cycle over the budget, from an idle running processor. *)
Lemma cycle_overrun s rs t0 c f px t1 :
  intervalId s = true -> isProcessing s = false -> isDisabled s = false ->
  2 <= rs -> PrimFloat.ltb 200 (t1 - t0) = true ->
  run s (cycle rs t0 (DetOk c f) (inl px) t1) =
    if 3 <=? S (consecutiveOverruns s)
    then (mkFP false false (S (consecutiveOverruns s)) true None,
          [OnDisabled "Processing time exceeded budget"])
    else (mkFP true false (S (consecutiveOverruns s)) false None,
          [OnAnalysis (report c (calculateBrightness px) (t1 - t0)%float)]).
Proof.
  intros Hi Hp Hd Hrs Hlt.
  destruct s as [iv ip co dis pe]; simpl in *; subst.
  destruct rs as [|[|rs]]; [lia|lia|].
  unfold cycle, run, step, processFrame_begin, processFrame_resume, MAX_PROCESSING_MS,
    MAX_CONSECUTIVE_OVERRUNS.
  cbn [intervalId isProcessing isDisabled pending consecutiveOverruns orb Nat.ltb Nat.leb].
  rewrite Hlt.
  destruct co as [|[|co]]; reflexivity.
Qed.

Lemma run_app s xs ys :
  run s (app xs ys) =
    let '(s1, o1) := run s xs in
    let '(s2, o2) := run s1 ys in (s2, app o1 o2).
Proof.
  revert s. induction xs as [|i xs IH]; intros s; simpl.
  - destruct (run s ys); reflexivity.
  - destruct (step s i) as [s1 o1]. rewrite IH.
    destruct (run s1 xs) as [s2 o2]. destruct (run s2 ys) as [s3 o3].
    rewrite app_assoc. reflexivity.
Qed.

Lemma run_analysis s is s' out o :
  run s is = (s', out) -> In (OnAnalysis o) out ->
  exists count faces data now t0,
    In (DetectSettled (DetOk count faces) (inl data) now) is /\
    o = report count (calculateBrightness data) (now - t0)%float.
Proof.
  revert s s' out. induction is as [|i is IH]; intros s s' out E Hin.
  - injection E as _ <-. contradiction.
  - simpl in E. destruct (step s i) as [s1 o1] eqn:S1.
    destruct (run s1 is) as [s2 o2] eqn:S2.
    injection E as _ <-. apply in_app_or in Hin as [Hin|Hin].
    + destruct (step_analysis s i s1 o1 o S1 Hin)
        as (count & faces & data & now & t0 & -> & _ & ->).
      exists count, faces, data, now, t0. split; [left; reflexivity|reflexivity].
    + destruct (IH s1 s2 o2 S2 Hin)
        as (count & faces & data & now & t0 & Hi & ->).
      exists count, faces, data, now, t0. split; [right; exact Hi|reflexivity].
Qed.

(** Whether an activation is suspended at its [await]. *)
Definition in_flight (s : fp) : bool :=
  match pending s with Some _ => true | None => false end.

(** What the processor keeps true between events. *)
Definition Inv (s : fp) : Prop :=
  isProcessing s = in_flight s
  /\ (if isDisabled s
      then intervalId s = false /\ pending s = None /\ consecutiveOverruns s = 3
      else consecutiveOverruns s < 3).

Lemma Inv_step (s : fp) (i : input) : Inv s -> Inv (fst (step s i)).
Proof.
  destruct s as [iv ip co dis pe]. unfold Inv. cbn [isProcessing pending isDisabled intervalId
    consecutiveOverruns]. intros [Hp Hd].
  destruct i as [rs now c | d img now | | | ]; simpl.
  - destruct iv; [|split; assumption].
    unfold processFrame_begin. cbn [isProcessing isDisabled].
    destruct (ip || dis) eqn:G; [split; assumption|].
    apply orb_false_iff in G as [-> ->].
    destruct rs as [rs|]; [|split; assumption].
    destruct (rs <? 2); [split; assumption|].
    destruct c; simpl; split; auto.
  - destruct pe as [t0|]; simpl; [|split; assumption].
    unfold processFrame_resume.
    destruct dis; [destruct Hd as (_ & Hpe & _); discriminate|]. simpl in Hd.
    destruct d as [count faces|e]; [|simpl; split; auto].
    destruct img as [data|e]; [|simpl; split; auto].
    destruct (PrimFloat.ltb MAX_PROCESSING_MS (now - t0)).
    + unfold MAX_CONSECUTIVE_OVERRUNS. cbn [consecutiveOverruns].
      destruct (Nat.leb_spec 3 (S co)); simpl; repeat split; try reflexivity; lia.
    + simpl. split; auto; lia.
  - unfold start. destruct iv; simpl; split; auto; lia.
  - unfold stop. simpl. split; auto. destruct dis; [destruct Hd as (_ & ? & ?)|]; auto.
  - unfold stop. simpl. split; auto. destruct dis; [destruct Hd as (_ & ? & ?)|]; auto.
Qed.

Lemma run_fst (s : fp) (i : input) (is : list input) :
  fst (run s (i :: is)) = fst (run (fst (step s i)) is).
Proof.
  simpl. destruct (step s i) as [s1 o1]. simpl. destruct (run s1 is) as [s2 o2]. reflexivity.
Qed.

Lemma Inv_run (is : list input) : forall s, Inv s -> Inv (fst (run s is)).
Proof.
  induction is as [|i is IH]; intros s H; [exact H|].
  rewrite run_fst. apply IH. apply Inv_step. exact H.
Qed.

(** Whether an input is the detector settling. *)
Definition is_settle (i : input) : bool :=
  match i with DetectSettled _ _ _ => true | _ => false end.

(** The detector settling always ends the suspended activation. *)
Lemma settle_clears_pending (s : fp) (d : detection) (img : sum (list Z) string) (now : float) :
  pending (fst (step s (DetectSettled d img now))) = None.
Proof.
  simpl. destruct (pending s) as [t0|] eqn:P; [|exact P].
  unfold processFrame_resume.
  destruct d; [|reflexivity]. destruct img; [|reflexivity].
  destruct (PrimFloat.ltb MAX_PROCESSING_MS (now - t0)); [|reflexivity].
  match goal with |- context [if ?b then _ else _] => destruct b end; reflexivity.
Qed.

(** Any other input leaves the suspended activation as it is, except a tick
    that begins one when none is suspended: its [startTime] is the tick's
    [performance.now()]. *)
Lemma pending_other_step (s : fp) (i : input) :
  Inv s -> is_settle i = false ->
  pending (fst (step s i)) = pending s
  \/ (pending s = None /\ exists rs now, i = Tick (Some rs) now CaptureOk
                                      /\ pending (fst (step s i)) = Some now).
Proof.
  intros [Hp _] Hi.
  destruct i as [rso now c | d img now | | | ]; [|discriminate| |left; reflexivity..].
  - simpl. destruct (intervalId s); [|left; reflexivity].
    unfold processFrame_begin.
    destruct (isProcessing s || isDisabled s) eqn:G; [left; reflexivity|].
    apply orb_false_iff in G as [G _].
    assert (Pn : pending s = None)
      by (unfold in_flight in Hp; destruct (pending s); [congruence|reflexivity]).
    destruct rso as [rs|]; [|left; reflexivity].
    destruct (rs <? 2); [left; reflexivity|].
    destruct c as [|e].
    + right. split; [exact Pn|]. exists rs, now. split; reflexivity.
    + left. simpl. symmetry. exact Pn.
  - simpl. unfold start. destruct (intervalId s); left; reflexivity.
Qed.

(** Where an analysis event of a run comes from: the detector settling with
    a count and pixels read, as the first settle after the tick that began
    the activation (or, for an activation suspended before the run, the first
    settle of the run). *)
Lemma analysis_origin (is : list input) : forall s s' out o,
  Inv s -> run s is = (s', out) -> In (OnAnalysis o) out ->
  exists pre mid post count faces data now t0,
    is = app pre (app mid (DetectSettled (DetOk count faces) (inl data) now :: post))
    /\ (forall i, In i mid -> is_settle i = false)
    /\ ((pre = [] /\ pending s = Some t0)
        \/ exists pre' rs, pre = app pre' [Tick (Some rs) t0 CaptureOk]
              /\ pending (fst (run s pre')) = None
              /\ pending (fst (run s pre)) = Some t0)
    /\ o = report count (calculateBrightness data) (now - t0)%float.
Proof.
  induction is as [|i is IH]; intros s s' out o HI E Hin.
  - injection E as _ <-. contradiction.
  - simpl in E. destruct (step s i) as [s1 o1] eqn:S1.
    destruct (run s1 is) as [s2 o2] eqn:S2.
    injection E as _ <-. apply in_app_or in Hin as [Hin|Hin].
    + destruct (step_analysis s i s1 o1 o S1 Hin)
        as (count & faces & data & now & t0 & -> & P & ->).
      exists [], [], is, count, faces, data, now, t0.
      split; [reflexivity|]. split; [intros ? []|]. split; [left; split; [reflexivity|exact P]|].
      reflexivity.
    + assert (HI1 : Inv s1) by (change s1 with (fst (s1, o1)); rewrite <- S1; apply Inv_step; exact HI).
      destruct (IH s1 s2 o2 o HI1 S2 Hin)
        as (pre & mid & post & count & faces & data & now & t0 & Eis & Hmid & Hcase & Ho).
      destruct Hcase as [[-> P1] | (pre' & rs & Epre & P' & P)].
      * destruct (is_settle i) eqn:Si.
        { exfalso. destruct i as [| d img t | | |]; try discriminate.
          pose proof (settle_clears_pending s d img t) as C. rewrite S1 in C. simpl in C.
          congruence. }
        destruct (pending_other_step s i HI Si) as [Q | (Pn & rs & t & Ei & Q)];
          rewrite S1 in Q; simpl in Q.
        { exists [], (i :: mid), post, count, faces, data, now, t0.
          split; [simpl; rewrite Eis; reflexivity|].
          split; [intros j [<-|Hj]; [exact Si|exact (Hmid j Hj)]|].
          split; [left; split; [reflexivity|congruence]|exact Ho]. }
        { rewrite Q in P1. injection P1 as <-.
          exists [i], mid, post, count, faces, data, now, t.
          split; [simpl; rewrite Eis; reflexivity|]. split; [exact Hmid|].
          split; [right; exists [], rs; subst i; split; [reflexivity|]|exact Ho].
          split; [exact Pn|]. rewrite run_fst, S1. exact Q. }
      * exists (i :: pre), mid, post, count, faces, data, now, t0.
        split; [simpl; rewrite Eis; reflexivity|]. split; [exact Hmid|].
        split; [|exact Ho]. right. exists (i :: pre'), rs.
        split; [rewrite Epre; reflexivity|].
        rewrite !run_fst, S1. simpl. split; assumption.
Qed.

End SchedulerProofs.

Module SchedulerClaims.
Import FrameProcessor SchedulerProofs Fixtures.

(** C1 (counterexample): started, the processor runs one cycle in which the
    detector returns a face with all 478 landmarks; the one analysis event it
    emits carries only [faceCount], [brightness] and [processingTime]: no
    [isRotated], [isLookingAway] or [gazeDirection] is computed or reported. *)
Lemma processFrame_report_lacks_geometry :
  List.length flat_face = 478
  /\ snd (run initial one_cycle) = [OnAnalysis (report 1 100 50)]
  /\ map fst (report 1 100 50) = ["faceCount"; "brightness"; "processingTime"].
Proof.
  split; [reflexivity|]. split; [vm_compute; reflexivity|reflexivity].
Qed.

(** C1 (amended): every analysis event of the processor, from its creation,
    is the object with exactly the keys [faceCount], [brightness] and
    [processingTime], built in one cycle: a tick at [startTime] (its
    [performance.now()]) began the activation, and the first settle of the
    detector after it (no other settle in between) gives [faceCount] (the
    count the detector returned), [brightness] (the strided luma average of
    the pixels read then) and [processingTime] ([performance.now()] then,
    minus [startTime]). *)
Theorem processFrame_analysis_fields :
  forall is s' out o,
    run initial is = (s', out) -> In (OnAnalysis o) out ->
    map fst o = ["faceCount"; "brightness"; "processingTime"]
    /\ exists pre rs startTime mid count faces data now post,
         is = app pre (Tick (Some rs) startTime CaptureOk
                       :: app mid (DetectSettled (DetOk count faces) (inl data) now :: post))
         /\ pending (fst (run initial pre)) = None
         /\ pending (fst (run initial (app pre [Tick (Some rs) startTime CaptureOk])))
              = Some startTime
         /\ (forall i, In i mid -> is_settle i = false)
         /\ o = [("faceCount", JNum count);
                 ("brightness", JNum (calculateBrightness data));
                 ("processingTime", JNum (now - startTime)%float)].
Proof.
  intros is s' out o E Hin.
  assert (I0 : Inv initial) by (unfold Inv; simpl; split; [reflexivity|lia]).
  destruct (analysis_origin is initial s' out o I0 E Hin)
    as (pre & mid & post & count & faces & data & now & t0 & Eis & Hmid & Hcase & ->).
  split; [reflexivity|].
  destruct Hcase as [[_ P] | (pre' & rs & Epre & P' & P)]; [discriminate|].
  exists pre', rs, t0, mid, count, faces, data, now, post.
  split; [rewrite Eis, Epre, <- app_assoc; reflexivity|].
  split; [exact P'|]. split; [rewrite <- Epre; exact P|]. split; [exact Hmid|reflexivity].
Qed.


(** C2: from a running, idle processor with no overrun counted, three completed
    cycles that each take more than 200 ms: the first two still report, the
    third emits only the disabled event with its reason, clears the interval
    and sets [isDisabled]; afterwards no input other than [start()] makes the
    processor do anything. *)
Theorem processFrame_overrun_breaker :
  forall (s : fp) (rs1 rs2 rs3 : nat) (a1 b1 a2 b2 a3 b3 c1 c2 c3 : float)
         (f1 f2 f3 : list (list lval)) (p1 p2 p3 : list Z),
    intervalId s = true -> isProcessing s = false -> isDisabled s = false ->
    consecutiveOverruns s = 0 ->
    2 <= rs1 -> 2 <= rs2 -> 2 <= rs3 ->
    PrimFloat.ltb 200 (b1 - a1) = true ->
    PrimFloat.ltb 200 (b2 - a2) = true ->
    PrimFloat.ltb 200 (b3 - a3) = true ->
    let '(s1, o1) := run s (cycle rs1 a1 (DetOk c1 f1) (inl p1) b1) in
    let '(s2, o2) := run s1 (cycle rs2 a2 (DetOk c2 f2) (inl p2) b2) in
    let '(s3, o3) := run s2 (cycle rs3 a3 (DetOk c3 f3) (inl p3) b3) in
    (exists x, o1 = [OnAnalysis x])
    /\ (exists x, o2 = [OnAnalysis x])
    /\ o3 = [OnDisabled "Processing time exceeded budget"]
    /\ isDisabled s3 = true /\ intervalId s3 = false /\ isProcessing s3 = false
    /\ (forall rest, ~ In Start rest -> run s3 rest = (s3, [])).
Proof.
  intros s rs1 rs2 rs3 a1 b1 a2 b2 a3 b3 c1 c2 c3 f1 f2 f3 p1 p2 p3
    Hi Hp Hd Hco R1 R2 R3 L1 L2 L3.
  rewrite (cycle_overrun s rs1 a1 c1 f1 p1 b1 Hi Hp Hd R1 L1), Hco.
  cbv beta iota fix delta [Nat.leb consecutiveOverruns].
  rewrite (cycle_overrun (mkFP true false 1 false None) rs2 a2 c2 f2 p2 b2
             eq_refl eq_refl eq_refl R2 L2).
  cbv beta iota fix delta [Nat.leb consecutiveOverruns].
  rewrite (cycle_overrun (mkFP true false 2 false None) rs3 a3 c3 f3 p3 b3
             eq_refl eq_refl eq_refl R3 L3).
  cbv beta iota fix delta [Nat.leb consecutiveOverruns].
  split; [eexists; reflexivity|].
  split; [eexists; reflexivity|].
  do 4 (split; [reflexivity|]).
  intros rest Hs. apply run_idle; [reflexivity|reflexivity|exact Hs].
Qed.

(** C3: a cycle whose capture ([drawImage], or [getImageData] after the
    detector) or detector call throws emits exactly the error event with its
    cause, leaves the overrun counter as it was, and ends with [isProcessing]
    false and no activation pending. *)
Theorem processFrame_error_cycle :
  (forall s rs now e s' out,
     intervalId s = true -> isProcessing s = false -> isDisabled s = false -> 2 <= rs ->
     step s (Tick (Some rs) now (CaptureThrows e)) = (s', out) ->
     out = [OnError e] /\ consecutiveOverruns s' = consecutiveOverruns s
     /\ isProcessing s' = false /\ pending s' = None)
  /\
  (forall s startTime d img now e s' out,
     pending s = Some startTime ->
     (d = DetThrows e \/ exists c f, d = DetOk c f /\ img = inr e) ->
     step s (DetectSettled d img now) = (s', out) ->
     out = [OnError e] /\ consecutiveOverruns s' = consecutiveOverruns s
     /\ isProcessing s' = false /\ pending s' = None).
Proof.
  split.
  - intros s rs now e s' out Hi Hp Hd Hrs E.
    destruct rs as [|[|rs]]; [lia|lia|].
    unfold step, processFrame_begin in E. rewrite Hi, Hp, Hd in E. simpl in E.
    injection E as <- <-. repeat split.
  - intros s t0 d img now e s' out Hpe Hd E.
    simpl in E. rewrite Hpe in E. unfold processFrame_resume in E.
    destruct Hd as [-> | (c & f & -> & ->)];
      injection E as <- <-; repeat split.
Qed.

End SchedulerClaims.

(** * Instances of the theorems with hypotheses, at concrete inputs *)

Module Witnesses.
Import FrameProcessor SchedulerProofs Fixtures.

(** An analysis with a present face and brightness 100. *)
Definition lit_analysis : FlagManager.Analysis.t :=
  FlagManager.Analysis.mk 1 false false FlagManager.GNull 100.

(** The idle, running processor with no overrun counted. *)
Definition running : fp := mkFP true false 0 false None.

Lemma processAnalysis_flag_shape_witness :
  PrimFloat.is_nan (FlagManager.Analysis.brightness lit_analysis) = false
  /\ List.length (FlagManager.currentFlags
       (FlagManager.processAnalysis 0 FlagManager.createInitialState lit_analysis)) <= 2.
Proof.
  split; [reflexivity|].
  pose proof (FlagProofs.processAnalysis_flag_shape 0 FlagManager.createInitialState
                lit_analysis eq_refl) as H.
  cbv zeta in H. destruct H as (_ & _ & H & _). exact H.
Defined.

Lemma analyzeRotation_yaw_witness :
  478 <= List.length flat_face
  /\ exists r, Rotation.analyzeRotation (Some flat_face) = JS.Ok r
       /\ Rotation.isRotated r = negb (String.eqb (Rotation.yaw r) "CENTER").
Proof.
  assert (L : 478 <= List.length flat_face) by (vm_compute; lia).
  split; [exact L|].
  destruct (GeometryClaims.analyzeRotation_yaw flat_face L) as (r & E & I & _).
  exists r. split; [exact E|exact I].
Defined.

Lemma processFrame_analysis_fields_witness :
  In (OnAnalysis (report 1 100 50)) (snd (run initial one_cycle))
  /\ map fst (report 1 100 50) = ["faceCount"; "brightness"; "processingTime"].
Proof.
  assert (Hin : In (OnAnalysis (report 1 100 50)) (snd (run initial one_cycle)))
    by (vm_compute; left; reflexivity).
  split; [exact Hin|].
  exact (proj1 (SchedulerClaims.processFrame_analysis_fields one_cycle
                  (fst (run initial one_cycle)) (snd (run initial one_cycle))
                  (report 1 100 50) (surjective_pairing _) Hin)).
Defined.

Lemma processFrame_overrun_breaker_witness :
  PrimFloat.ltb 200 (300 - 0) = true
  /\ let '(s1, o1) := run running (cycle 4 0 (DetOk 1 [flat_face]) (inl grey_pixels) 300) in
     let '(s2, o2) := run s1 (cycle 4 0 (DetOk 1 [flat_face]) (inl grey_pixels) 300) in
     let '(s3, o3) := run s2 (cycle 4 0 (DetOk 1 [flat_face]) (inl grey_pixels) 300) in
     (exists x, o1 = [OnAnalysis x])
     /\ (exists x, o2 = [OnAnalysis x])
     /\ o3 = [OnDisabled "Processing time exceeded budget"]
     /\ isDisabled s3 = true /\ intervalId s3 = false /\ isProcessing s3 = false
     /\ (forall rest, ~ In Start rest -> run s3 rest = (s3, [])).
Proof.
  assert (L : PrimFloat.ltb 200 (300 - 0) = true) by reflexivity.
  split; [exact L|].
  exact (SchedulerClaims.processFrame_overrun_breaker running 4 4 4 0 300 0 300 0 300
           1 1 1 [flat_face] [flat_face] [flat_face] grey_pixels grey_pixels grey_pixels
           eq_refl eq_refl eq_refl eq_refl
           ltac:(lia) ltac:(lia) ltac:(lia) L L L).
Defined.

Lemma processFrame_error_cycle_witness :
  step running (Tick (Some 4) 0 (CaptureThrows "drawImage failed"))
    = (fst (step running (Tick (Some 4) 0 (CaptureThrows "drawImage failed"))),
       snd (step running (Tick (Some 4) 0 (CaptureThrows "drawImage failed"))))
  /\ snd (step running (Tick (Some 4) 0 (CaptureThrows "drawImage failed")))
       = [OnError "drawImage failed"].
Proof.
  assert (E : step running (Tick (Some 4) 0 (CaptureThrows "drawImage failed"))
    = (fst (step running (Tick (Some 4) 0 (CaptureThrows "drawImage failed"))),
       snd (step running (Tick (Some 4) 0 (CaptureThrows "drawImage failed")))))
    by apply surjective_pairing.
  split; [exact E|].
  destruct (proj1 SchedulerClaims.processFrame_error_cycle running 4 0%float "drawImage failed"
              _ _ eq_refl eq_refl eq_refl ltac:(lia) E) as (H & _).
  exact H.
Defined.

End Witnesses.

(** * Further properties of the code *)

(** ** Flag comparison and flag state *)
Module FlagExtras.
Import FlagManager FlagProofs.

(** The order [Array.prototype.sort] uses on the flag names. *)
Definition str_le (a b : string) : Prop := String.leb a b = true.

Lemma str_compare_le_trans (a b c : string) :
  String.compare a b <> Gt -> String.compare b c <> Gt -> String.compare a c <> Gt.
Proof.
  revert b c. induction a as [|x a IH]; intros b c H1 H2.
  - destruct c; simpl; discriminate.
  - destruct b as [|y b]; [simpl in H1; congruence|].
    destruct c as [|z c]; [simpl in H2; congruence|].
    simpl in *. unfold Ascii.compare in *.
    destruct (N.compare (Ascii.N_of_ascii x) (Ascii.N_of_ascii y)) eqn:C1;
      [|clear H1|congruence];
    (destruct (N.compare (Ascii.N_of_ascii y) (Ascii.N_of_ascii z)) eqn:C2;
      [|clear H2|congruence]).
    + apply N.compare_eq_iff in C1, C2.
      replace (N.compare (Ascii.N_of_ascii x) (Ascii.N_of_ascii z)) with Eq
        by (symmetry; apply N.compare_eq_iff; lia).
      apply (IH b c); assumption.
    + apply N.compare_eq_iff in C1. rewrite N.compare_lt_iff in C2.
      replace (N.compare (Ascii.N_of_ascii x) (Ascii.N_of_ascii z)) with Lt
        by (symmetry; apply N.compare_lt_iff; lia).
      discriminate.
    + rewrite N.compare_lt_iff in C1. apply N.compare_eq_iff in C2.
      replace (N.compare (Ascii.N_of_ascii x) (Ascii.N_of_ascii z)) with Lt
        by (symmetry; apply N.compare_lt_iff; lia).
      discriminate.
    + rewrite N.compare_lt_iff in C1, C2.
      replace (N.compare (Ascii.N_of_ascii x) (Ascii.N_of_ascii z)) with Lt
        by (symmetry; apply N.compare_lt_iff; lia).
      discriminate.
Qed.

Lemma str_le_trans (a b c : string) : str_le a b -> str_le b c -> str_le a c.
Proof.
  unfold str_le, String.leb. intros H1 H2.
  assert (N1 : String.compare a b <> Gt) by (destruct (String.compare a b); congruence).
  assert (N2 : String.compare b c <> Gt) by (destruct (String.compare b c); congruence).
  pose proof (str_compare_le_trans a b c N1 N2).
  destruct (String.compare a c); congruence.
Qed.

Lemma insert_perm (s : string) (l : list string) : Permutation (insert s l) (s :: l).
Proof.
  induction l as [|h t IH]; simpl; [reflexivity|].
  destruct (String.leb s h); [reflexivity|].
  rewrite IH. apply perm_swap.
Qed.

Lemma sort_perm (l : list string) : Permutation (sort l) l.
Proof.
  induction l as [|h t IH]; simpl; [reflexivity|].
  rewrite insert_perm. apply perm_skip. exact IH.
Qed.

Lemma insert_sorted (s : string) (l : list string) :
  StronglySorted str_le l -> StronglySorted str_le (insert s l).
Proof.
  induction l as [|h t IH]; intros H; simpl.
  - repeat constructor.
  - inversion H as [|? ? Ht Hall]; subst.
    destruct (String.leb s h) eqn:E.
    + constructor; [exact H|]. constructor; [exact E|].
      eapply Forall_impl; [|exact Hall]. intros b Hb. eapply str_le_trans; eauto.
    + constructor; [apply IH; exact Ht|].
      apply (Permutation_Forall (Permutation_sym (insert_perm s t))).
      constructor; [|exact Hall].
      destruct (String.leb_total s h) as [E'|E']; [congruence|exact E'].
Qed.

Lemma sort_sorted (l : list string) : StronglySorted str_le (sort l).
Proof.
  induction l as [|h t IH]; simpl; [constructor|].
  apply insert_sorted. exact IH.
Qed.

Lemma sorted_perm_eq (l1 l2 : list string) :
  StronglySorted str_le l1 -> StronglySorted str_le l2 -> Permutation l1 l2 -> l1 = l2.
Proof.
  revert l2. induction l1 as [|a l1 IH]; intros l2 S1 S2 P.
  - symmetry. apply Permutation_nil. exact P.
  - destruct l2 as [|b l2]; [apply Permutation_sym, Permutation_nil in P; discriminate|].
    inversion S1 as [|? ? S1' A1]; inversion S2 as [|? ? S2' A2]; subst.
    assert (Hab : a = b).
    { assert (Ia : In a (b :: l2)) by (apply (Permutation_in a P); left; reflexivity).
      assert (Ib : In b (a :: l1)) by (apply (Permutation_in b (Permutation_sym P)); left; reflexivity).
      destruct Ia as [->|Ia]; [reflexivity|]. destruct Ib as [->|Ib]; [reflexivity|].
      rewrite Forall_forall in A1, A2.
      apply String.leb_antisym; [apply A1; exact Ib|apply A2; exact Ia]. }
    subst b. f_equal. apply IH; auto. eapply Permutation_cons_inv. exact P.
Qed.

Lemma every_idx_eq (a b : list string) :
  List.length a = List.length b -> every_idx a b = true <-> a = b.
Proof.
  revert b. induction a as [|x a IH]; intros [|y b] L; simpl in *; try discriminate.
  - tauto.
  - rewrite andb_true_iff, String.eqb_eq, IH by lia.
    split; [intros [-> ->]; reflexivity|intros E; injection E; auto].
Qed.

(** Runs over the samples, one at a time from the end. *)
Lemma run_snoc (st : state) (xs : list (float * Analysis.t)) (now : float) (a : Analysis.t) :
  run st (app xs [(now, a)]) = processAnalysis now (run st xs) a.
Proof. revert st. induction xs as [|[t b] xs IH]; intros st; simpl; auto. Qed.

Lemma run2_snoc (st : FlagManagerV2.state) (xs : list (float * Analysis.t)) now a :
  FlagManagerV2.run st (app xs [(now, a)]) = FlagManagerV2.processAnalysis now (FlagManagerV2.run st xs) a.
Proof. revert st. induction xs as [|[t b] xs IH]; intros st; simpl; auto. Qed.

Lemma consecutiveMissing_step (now : float) (st : state) (a : Analysis.t) :
  consecutiveMissing (processAnalysis now st a) =
    if Analysis.faceCount a =? 0 then S (consecutiveMissing st) else 0.
Proof.
  destruct (processAnalysis_fields now st a) as [_ [-> _]].
  unfold face_branch.
  destruct (Nat.ltb_spec 1 (Analysis.faceCount a));
    destruct (Nat.eqb_spec (Analysis.faceCount a) 0); try lia; simpl;
    repeat match goal with |- context [if ?b then _ else _] => destruct b end;
    reflexivity.
Qed.

Lemma consecutiveMissing2_step now (st : FlagManagerV2.state) (a : Analysis.t) :
  FlagManagerV2.consecutiveMissing (FlagManagerV2.processAnalysis now st a) =
    if Analysis.faceCount a =? 0 then S (FlagManagerV2.consecutiveMissing st) else 0.
Proof.
  unfold FlagManagerV2.processAnalysis.
  destruct (Nat.ltb_spec 1 (Analysis.faceCount a));
    destruct (Nat.eqb_spec (Analysis.faceCount a) 0); try lia; simpl; reflexivity.
Qed.

(** The samples of [xs] split into a prefix ending with a sample that has a
    face (or empty) and a suffix of [n] face-less samples. *)
Definition trailing_missing (xs : list (float * Analysis.t)) (n : nat) : Prop :=
  exists pre post,
    xs = app pre post /\ List.length post = n
    /\ Forall (fun p => Analysis.faceCount (snd p) = 0) post
    /\ (pre = [] \/ exists pre' p, pre = app pre' [p] /\ Analysis.faceCount (snd p) <> 0).

Lemma trailing_missing_snoc (xs : list (float * Analysis.t)) (n : nat) (p : float * Analysis.t) :
  trailing_missing xs n ->
  trailing_missing (app xs [p]) (if Analysis.faceCount (snd p) =? 0 then S n else 0).
Proof.
  intros (pre & post & -> & L & F & P).
  destruct (Nat.eqb_spec (Analysis.faceCount (snd p)) 0) as [Z|Z].
  - exists pre, (app post [p]). rewrite app_assoc. repeat split; auto.
    + rewrite length_app. simpl. lia.
    + apply Forall_app. split; auto.
  - exists (app (app pre post) [p]), []. rewrite app_nil_r. repeat split; auto.
    right. exists (app pre post), p. auto.
Qed.

End FlagExtras.

Module FlagExtraProofs.
Import FlagManager FlagProofs FlagExtras.

Lemma shapes_arraysEqual_eq :
  forallb (fun a => forallb (fun b =>
     implb (arraysEqual a b) (if list_eq_dec String.string_dec a b then true else false))
     flag_shapes) flag_shapes = true.
Proof. vm_compute. reflexivity. Qed.

Lemma arraysEqual_shapes_eq (a b : list string) :
  In a flag_shapes -> In b flag_shapes -> arraysEqual a b = true -> a = b.
Proof.
  intros Ha Hb E.
  pose proof shapes_arraysEqual_eq as C.
  rewrite forallb_forall in C. specialize (C a Ha).
  rewrite forallb_forall in C. specialize (C b Hb).
  rewrite E in C. simpl in C.
  destruct (list_eq_dec String.string_dec a b); [assumption|discriminate].
Qed.

Lemma history_entry_step (now : float) (st : state) (a : Analysis.t) :
  (history (processAnalysis now st a) = history st
   /\ arraysEqual (currentFlags st) (currentFlags (processAnalysis now st a)) = true)
  \/ exists e, history (processAnalysis now st a) = app (slice_last19 (history st)) [e]
       /\ History.flags e = currentFlags (processAnalysis now st a).
Proof.
  unfold processAnalysis.
  destruct (face_branch st a) as [[ff cm] g]. simpl.
  match goal with |- context [if ?b then _ else _] => destruct b eqn:F end.
  - right. eexists. split; reflexivity.
  - left. split; [reflexivity|].
    apply orb_false_iff in F as [F _]. apply negb_false_iff in F. exact F.
Qed.

(** The two versions side by side: same flags, counter, flag history and
    update time. *)
Definition agree (st : state) (st2 : FlagManagerV2.state) : Prop :=
  currentFlags st = FlagManagerV2.currentFlags st2
  /\ consecutiveMissing st = FlagManagerV2.consecutiveMissing st2
  /\ map History.flags (history st) = map FlagManagerV2.History.flags (FlagManagerV2.history st2)
  /\ lastUpdate st = FlagManagerV2.lastUpdate st2.

Lemma map_slice_last19 {A B C} (f : A -> C) (g : B -> C) (l1 : list A) (l2 : list B) :
  map f l1 = map g l2 -> map f (slice_last19 l1) = map g (slice_last19 l2).
Proof.
  intros E. unfold slice_last19.
  assert (L : List.length l1 = List.length l2).
  { rewrite <- (length_map f l1), <- (length_map g l2), E. reflexivity. }
  rewrite L, <- !skipn_map, E. reflexivity.
Qed.

Lemma agree_step (now : float) st st2 (a : Analysis.t) :
  agree st st2 -> Analysis.isRotated a = false -> Analysis.isLookingAway a = false ->
  agree (processAnalysis now st a) (FlagManagerV2.processAnalysis now st2 a).
Proof.
  intros (F & C & H & U) Hr Hl.
  unfold processAnalysis, FlagManagerV2.processAnalysis, face_branch.
  cbv beta zeta. rewrite Hr, Hl, C.
  destruct (1 <? Analysis.faceCount a);
    [|destruct (Analysis.faceCount a =? 0);
      [destruct (FACE_MISSING_THRESHOLD <=? S (FlagManagerV2.consecutiveMissing st2))|]];
    simpl; rewrite F;
    match goal with |- context [arraysEqual (FlagManagerV2.currentFlags st2) ?n] =>
      destruct (arraysEqual (FlagManagerV2.currentFlags st2) n) end;
    simpl; repeat split; auto;
    cbn [history FlagManagerV2.history]; rewrite !map_app; f_equal; apply map_slice_last19; exact H.
Qed.

(** The flag lists the second version can produce. *)
Definition flag_shapes_v2 : list (list string) :=
  flat_map (fun f => [f; app f ["LOW_LIGHT"]])
    [[]; ["MULTIPLE_FACES"]; ["FACE_MISSING"]; ["FACE_OK"]].

Lemma v2_step_shape now (st : FlagManagerV2.state) (a : Analysis.t) :
  In (FlagManagerV2.currentFlags (FlagManagerV2.processAnalysis now st a)) flag_shapes_v2
  /\ FlagManagerV2.faceCount (FlagManagerV2.processAnalysis now st a) = Analysis.faceCount a
  /\ (List.length (FlagManagerV2.history st) <= 20 ->
      List.length (FlagManagerV2.history (FlagManagerV2.processAnalysis now st a)) <= 20).
Proof.
  unfold FlagManagerV2.processAnalysis.
  destruct (1 <? Analysis.faceCount a);
    [|destruct (Analysis.faceCount a =? 0);
      [destruct (FACE_MISSING_THRESHOLD <=? S (FlagManagerV2.consecutiveMissing st))|]];
    destruct (PrimFloat.ltb (Analysis.brightness a) LOW_LIGHT_THRESHOLD);
    cbn zeta iota beta;
    (match goal with |- context [if negb ?b then _ else _] => destruct b end);
    cbn [FlagManagerV2.currentFlags FlagManagerV2.faceCount FlagManagerV2.history negb];
    (split; [unfold flag_shapes_v2; simpl; tauto|]); (split; [reflexivity|]);
    intros HL; auto; rewrite length_app; simpl;
    pose proof (slice_last19_length (FlagManagerV2.history st)); lia.
Qed.

Lemma gaze_message_not_flag (gd : gval) :
  exists m, getFlagMessage "GAZE_AWAY" gd = MStr m /\ m <> "GAZE_AWAY".
Proof.
  unfold getFlagMessage, read_or_key, read_prop. simpl.
  destruct gd as [| |d]; [eexists; split; [reflexivity|discriminate]..|].
  destruct (String.eqb d ""); simpl; (eexists; split; [reflexivity|discriminate]).
Qed.

End FlagExtraProofs.

Module FlagExtraClaims.
Import FlagManager FlagProofs FlagExtras FlagExtraProofs.

(** X1: [arraysEqual(a, b)] holds exactly when [a] and [b] hold the same
    strings with the same multiplicities, in any order. *)
Theorem arraysEqual_permutation (a b : list string) :
  arraysEqual a b = true <-> Permutation a b.
Proof.
  unfold arraysEqual. split.
  - destruct (Nat.eqb_spec (List.length a) (List.length b)) as [L|L]; simpl; [|discriminate].
    intros H. apply every_idx_eq in H.
    + apply Permutation_trans with (sort a); [symmetry; apply sort_perm|].
      rewrite H. apply sort_perm.
    + rewrite (Permutation_length (sort_perm a)), (Permutation_length (sort_perm b)).
      exact L.
  - intros P. rewrite (Permutation_length P), Nat.eqb_refl. simpl.
    apply every_idx_eq.
    + rewrite (Permutation_length (sort_perm a)), (Permutation_length (sort_perm b)).
      apply Permutation_length. exact P.
    + apply sorted_perm_eq; [apply sort_sorted|apply sort_sorted|].
      apply Permutation_trans with a; [apply sort_perm|].
      apply Permutation_trans with b; [exact P|symmetry; apply sort_perm].
Qed.

(** X2: in both versions of the flag manager, after any sequence of samples
    from the initial state, [consecutiveMissing] is the number of face-less
    samples at the end of the sequence (the samples before them are none, or
    end with one where a face was counted). *)
Theorem consecutiveMissing_trailing (xs : list (float * Analysis.t)) :
  trailing_missing xs (consecutiveMissing (run createInitialState xs))
  /\ trailing_missing xs
       (FlagManagerV2.consecutiveMissing (FlagManagerV2.run FlagManagerV2.createInitialState xs)).
Proof.
  induction xs as [|[now a] xs [IH1 IH2]] using rev_ind.
  - split; exists [], []; repeat split; auto.
  - rewrite run_snoc, run2_snoc, consecutiveMissing_step, consecutiveMissing2_step.
    split; apply (trailing_missing_snoc _ _ (now, a)); assumption.
Qed.

(** X3: after any sequence of samples from the initial state, the last
    history entry records the current flags; the history is empty only while
    the flags are empty. *)
Theorem history_last_entry_current (xs : list (float * Analysis.t)) :
  let st := run createInitialState xs in
  (history st = [] /\ currentFlags st = [])
  \/ exists h e, history st = app h [e] /\ History.flags e = currentFlags st.
Proof.
  cbv zeta.
  enough (In (currentFlags (run createInitialState xs)) flag_shapes /\
          ((history (run createInitialState xs) = [] /\ currentFlags (run createInitialState xs) = [])
           \/ exists h e, history (run createInitialState xs) = app h [e]
                 /\ History.flags e = currentFlags (run createInitialState xs))) as [_ H]
    by exact H.
  apply (run_preserves (fun st => In (currentFlags st) flag_shapes /\
           ((history st = [] /\ currentFlags st = [])
            \/ exists h e, history st = app h [e] /\ History.flags e = currentFlags st))).
  - intros now st a [Sh Hi]. split; [apply currentFlags_shape|].
    destruct (history_entry_step now st a) as [[Eh Ea] | (e & Eh & Ef)].
    + apply arraysEqual_shapes_eq in Ea; [|exact Sh|apply currentFlags_shape].
      rewrite Eh, <- Ea. exact Hi.
    + right. exists (slice_last19 (history st)), e. split; assumption.
  - simpl. split; [unfold flag_shapes; simpl; tauto|left; split; reflexivity].
Qed.

(** X4: on samples with no rotation and no gaze away, the two versions of the
    flag manager produce the same flags, the same missing-face counter, the
    same sequence of flag lists in the history and the same update time. *)
Theorem versions_agree_without_rotation_gaze (xs : list (float * Analysis.t)) :
  Forall (fun p => Analysis.isRotated (snd p) = false /\ Analysis.isLookingAway (snd p) = false) xs ->
  agree (run createInitialState xs) (FlagManagerV2.run FlagManagerV2.createInitialState xs).
Proof.
  intros HF.
  assert (G : forall st st2, agree st st2 -> agree (run st xs) (FlagManagerV2.run st2 xs)).
  { induction xs as [|[now a] xs IH]; intros st st2 Hag; simpl; [exact Hag|].
    inversion HF as [|? ? [Hr Hl] HF']; subst.
    apply IH; [exact HF'|]. apply agree_step; assumption. }
  apply G. repeat split.
Qed.

(** X5: in the second version, after any sequence of samples from the
    initial state, the flags are at most one of MULTIPLE_FACES, FACE_MISSING
    or FACE_OK, then optionally LOW_LIGHT; the history holds at most 20
    entries; and [faceCount] is the last sample's (0 before any sample). *)
Theorem v2_reachable_state (xs : list (float * Analysis.t)) :
  let st := FlagManagerV2.run FlagManagerV2.createInitialState xs in
  In (FlagManagerV2.currentFlags st) flag_shapes_v2
  /\ List.length (FlagManagerV2.history st) <= 20
  /\ FlagManagerV2.faceCount st =
       match rev xs with [] => 0 | p :: _ => Analysis.faceCount (snd p) end.
Proof.
  cbv zeta.
  induction xs as [|[now a] xs (IH1 & IH2 & IH3)] using rev_ind.
  - simpl. split; [unfold flag_shapes_v2; simpl; tauto|split; [lia|reflexivity]].
  - rewrite run2_snoc, rev_app_distr. simpl.
    destruct (v2_step_shape now (FlagManagerV2.run FlagManagerV2.createInitialState xs) a)
      as (S1 & S2 & S3).
    split; [exact S1|]. split; [apply S3; exact IH2|exact S2].
Qed.

(** X6: every flag [processAnalysis] raises has its own message: in both
    versions, [getFlagMessage] returns a string that is not the flag name
    itself, whatever the gaze direction passed. *)
Theorem flag_messages_defined :
  (forall now st a gd f,
     In f (currentFlags (processAnalysis now st a)) ->
     exists m, getFlagMessage f gd = MStr m /\ m <> f)
  /\
  (forall now st a f,
     In f (FlagManagerV2.currentFlags (FlagManagerV2.processAnalysis now st a)) ->
     exists m, FlagManagerV2.getFlagMessage f = MStr m /\ m <> f).
Proof.
  split.
  - intros now st a gd f Hf.
    pose proof (currentFlags_shape now st a) as Sh.
    unfold flag_shapes in Sh. simpl in Sh.
    assert (Hf' : In f ["MULTIPLE_FACES"; "FACE_MISSING"; "FACE_ROTATED"; "GAZE_AWAY";
                        "FACE_OK"; "LOW_LIGHT"]).
    { repeat (destruct Sh as [Sh|Sh]; [rewrite <- Sh in Hf; simpl in Hf; simpl; tauto|]).
      contradiction. }
    simpl in Hf'.
    repeat (destruct Hf' as [<-|Hf']; [first [apply gaze_message_not_flag
            | eexists; split; [reflexivity|cbn; discriminate]]|]).
    contradiction.
  - intros now st a f Hf.
    pose proof (proj1 (v2_step_shape now st a)) as Sh.
    unfold flag_shapes_v2 in Sh. simpl in Sh.
    assert (Hf' : In f ["MULTIPLE_FACES"; "FACE_MISSING"; "FACE_OK"; "LOW_LIGHT"]).
    { repeat (destruct Sh as [Sh|Sh]; [rewrite <- Sh in Hf; simpl in Hf; simpl; tauto|]).
      contradiction. }
    simpl in Hf'.
    repeat (destruct Hf' as [<-|Hf']; [eexists; split; [reflexivity|cbn; discriminate]|]).
    contradiction.
Qed.

(** X7: a flag that is not one of the manager's own names gets itself back as
    its message, except a name of a property of [Object.prototype]
    ([constructor], [toString], [__proto__], ...), for which the inherited
    non-string value is returned. In the second version this applies to
    FACE_ROTATED and GAZE_AWAY too. *)
Theorem getFlagMessage_unknown_flag (flag : string) (gd : gval) :
  ~ In flag ["FACE_OK"; "FACE_MISSING"; "MULTIPLE_FACES"; "LOW_LIGHT"] ->
  FlagManagerV2.getFlagMessage flag =
    (if existsb (String.eqb flag) object_prototype_keys then MInherited flag else MStr flag)
  /\ (~ In flag ["FACE_ROTATED"; "GAZE_AWAY"] ->
      getFlagMessage flag gd =
        (if existsb (String.eqb flag) object_prototype_keys then MInherited flag else MStr flag)).
Proof.
  intros Hn.
  assert (F : forall own : list (string * string),
    (forall kv, In kv own -> fst kv <> flag) ->
    read_or_key own flag =
      (if existsb (String.eqb flag) object_prototype_keys then MInherited flag else MStr flag)).
  { intros own Hown. unfold read_or_key, read_prop.
    replace (find (fun kv => String.eqb (fst kv) flag) own) with (@None (string * string)).
    - destruct (existsb (String.eqb flag) object_prototype_keys); reflexivity.
    - symmetry. induction own as [|kv own IH]; [reflexivity|]. simpl.
      replace (String.eqb (fst kv) flag) with false
        by (symmetry; apply String.eqb_neq; apply Hown; left; reflexivity).
      apply IH. intros kv' Hkv'. apply Hown. right. exact Hkv'. }
  split.
  - apply F. intros kv Hkv E. apply Hn. simpl in Hkv.
    repeat (destruct Hkv as [<-|Hkv]; [simpl in E; subst; simpl; tauto|]). contradiction.
  - intros Hn2. apply F. intros kv Hkv E. simpl in Hkv.
    repeat (destruct Hkv as [<-|Hkv];
            [simpl in E; subst; first [apply Hn; simpl; tauto | apply Hn2; simpl; tauto]|]).
    contradiction.
Qed.

End FlagExtraClaims.

Module GeometryExtraProofs.
Import Rotation Gaze FloatFacts GeometryProofs.

Lemma SFcompare_not_none (a b : float) :
  PrimFloat.is_nan a = false -> PrimFloat.is_nan b = false ->
  SpecFloat.SFcompare (FloatOps.Prim2SF a) (FloatOps.Prim2SF b) <> None.
Proof.
  intros Ha Hb.
  pose proof (Prim2SF_not_nan a Ha) as Na. pose proof (Prim2SF_not_nan b Hb) as Nb.
  destruct (FloatOps.Prim2SF a) as [| | |], (FloatOps.Prim2SF b) as [| | |];
    simpl; congruence.
Qed.

Lemma leb_refl (a : float) : PrimFloat.is_nan a = false -> PrimFloat.leb a a = true.
Proof.
  intros Ha. rewrite FloatAxioms.leb_spec. unfold SpecFloat.SFleb.
  pose proof (SFcompare_not_none a a Ha Ha) as N.
  pose proof (SFcompare_antisym (FloatOps.Prim2SF a) (FloatOps.Prim2SF a)) as A.
  destruct (SpecFloat.SFcompare (FloatOps.Prim2SF a) (FloatOps.Prim2SF a)) as [[| |]|];
    simpl in A; congruence.
Qed.

Lemma ltb_leb (a b : float) : PrimFloat.ltb a b = true -> PrimFloat.leb a b = true.
Proof.
  rewrite FloatAxioms.ltb_spec, FloatAxioms.leb_spec.
  unfold SpecFloat.SFltb, SpecFloat.SFleb.
  destruct (SpecFloat.SFcompare (FloatOps.Prim2SF a) (FloatOps.Prim2SF b)) as [[| |]|];
    congruence.
Qed.

Lemma not_ltb_leb (a b : float) :
  PrimFloat.is_nan a = false -> PrimFloat.is_nan b = false ->
  PrimFloat.ltb b a = false -> PrimFloat.leb a b = true.
Proof.
  intros Ha Hb. rewrite FloatAxioms.ltb_spec, FloatAxioms.leb_spec.
  unfold SpecFloat.SFltb, SpecFloat.SFleb.
  rewrite (SFcompare_antisym (FloatOps.Prim2SF b)).
  pose proof (SFcompare_not_none a b Ha Hb) as N.
  destruct (SpecFloat.SFcompare (FloatOps.Prim2SF a) (FloatOps.Prim2SF b)) as [[| |]|];
    simpl; congruence.
Qed.

(** [Math.min] of two numbers that are not NaN is one of them and below both. *)
Lemma js_min_cases (a b : float) :
  PrimFloat.is_nan a = false -> PrimFloat.is_nan b = false ->
  (js_min a b = a \/ js_min a b = b)
  /\ PrimFloat.leb (js_min a b) a = true /\ PrimFloat.leb (js_min a b) b = true.
Proof.
  intros Ha Hb. unfold js_min. rewrite Ha, Hb. simpl.
  destruct (PrimFloat.ltb a b) eqn:L1.
  - split; [left; reflexivity|split; [apply leb_refl; exact Ha|apply ltb_leb; exact L1]].
  - destruct (PrimFloat.ltb b a) eqn:L2.
    + split; [right; reflexivity|split; [apply ltb_leb; exact L2|apply leb_refl; exact Hb]].
    + pose proof (not_ltb_leb a b Ha Hb L2). pose proof (not_ltb_leb b a Hb Ha L1).
      destruct (PrimFloat.get_sign a); repeat split; auto using leb_refl.
Qed.

Lemma js_max_cases (a b : float) :
  PrimFloat.is_nan a = false -> PrimFloat.is_nan b = false ->
  (js_max a b = a \/ js_max a b = b)
  /\ PrimFloat.leb a (js_max a b) = true /\ PrimFloat.leb b (js_max a b) = true.
Proof.
  intros Ha Hb. unfold js_max. rewrite Ha, Hb. simpl.
  destruct (PrimFloat.ltb a b) eqn:L1.
  - split; [right; reflexivity|split; [apply ltb_leb; exact L1|apply leb_refl; exact Hb]].
  - destruct (PrimFloat.ltb b a) eqn:L2.
    + split; [left; reflexivity|split; [apply leb_refl; exact Ha|apply ltb_leb; exact L2]].
    + pose proof (not_ltb_leb a b Ha Hb L2). pose proof (not_ltb_leb b a Hb Ha L1).
      destruct (PrimFloat.get_sign a); repeat split; auto using leb_refl.
Qed.

Lemma js_min_nan_r (a : float) : js_min a PrimFloat.nan = PrimFloat.nan.
Proof. unfold js_min. rewrite orb_true_r. reflexivity. Qed.

Lemma js_max_nan_r (a : float) : js_max a PrimFloat.nan = PrimFloat.nan.
Proof. unfold js_max. rewrite orb_true_r. reflexivity. Qed.

Lemma js_min_nan_inv (a b : float) : PrimFloat.is_nan b = true -> js_min a b = PrimFloat.nan.
Proof. intros H. unfold js_min. rewrite H, orb_true_r. reflexivity. Qed.

Lemma js_max_nan_inv (a b : float) : PrimFloat.is_nan b = true -> js_max a b = PrimFloat.nan.
Proof. intros H. unfold js_max. rewrite H, orb_true_r. reflexivity. Qed.

(** A number that is NaN or lies in [-1, 1]. *)
Definition unit_range (r : float) : Prop :=
  PrimFloat.is_nan r = true
  \/ (PrimFloat.leb (-1) r = true /\ PrimFloat.leb r 1 = true).

Lemma normalized_unit_range (i mn mx : float) : unit_range (getNormalizedOffset i mn mx).
Proof.
  unfold getNormalizedOffset. cbv zeta.
  destruct (PrimFloat.ltb (PrimFloat.abs (mx - mn)) 0.001); [right; split; reflexivity|].
  set (o := ((i - (mn + mx) / 2) / PrimFloat.abs (mx - mn) * 2)%float).
  destruct (PrimFloat.is_nan o) eqn:No.
  - left. rewrite (js_min_nan_inv 1 o No), js_max_nan_r. reflexivity.
  - destruct (js_min_cases 1 o eq_refl No) as (Cm & Lm1 & Lmo).
    assert (Nm : PrimFloat.is_nan (js_min 1 o) = false)
      by (destruct Cm as [-> | ->]; [reflexivity|exact No]).
    destruct (js_max_cases (-1) (js_min 1 o) eq_refl Nm) as (CM & LM1 & LMm).
    right. split; [exact LM1|].
    destruct CM as [-> | ->]; [reflexivity|exact Lm1].
Qed.

Lemma horizontal_unit_range (iris inner outer : lval) (o : float) :
  getHorizontalOffset iris inner outer = Ok o -> unit_range o.
Proof.
  unfold getHorizontalOffset.
  destruct iris, inner, outer; simpl; intros E; inversion E; subst;
    try (right; split; reflexivity); apply normalized_unit_range.
Qed.

Lemma vertical_unit_range (iris top bottom : lval) (w : float) (v : vresult) :
  getVerticalOffset iris top bottom w = Ok v -> unit_range (offset v).
Proof.
  unfold getVerticalOffset.
  destruct iris, top, bottom; simpl; try (intros E; inversion E; subst; right; split; reflexivity).
  match goal with |- context [if ?b then _ else _] => destruct b end;
    intros E; inversion E; subst; [right; split; reflexivity|apply normalized_unit_range].
Qed.

Lemma unit_range_zero : unit_range 0.
Proof. right. split; reflexivity. Qed.

(** [getFlagMessage('GAZE_AWAY', d)] for the directions [analyzeGaze] gives. *)
Definition gaze_directions : list string :=
  ["UNKNOWN"; "CENTER"; "UP"; "DOWN"; "LEFT"; "RIGHT";
   "UP_LEFT"; "UP_RIGHT"; "DOWN_LEFT"; "DOWN_RIGHT"].

Definition gaze_away_messages : list string :=
  map (fun w => "Warning: Eyes looking " ++ w)
    ["away"; "unknown"; "up"; "down"; "left"; "right";
     "up-left"; "up-right"; "down-left"; "down-right"].

Lemma gaze_directions_messages :
  forallb (fun d =>
    match FlagManager.getFlagMessage "GAZE_AWAY" (FlagManager.GStr d) with
    | MStr m => existsb (String.eqb m) gaze_away_messages
    | MInherited _ => false
    end) gaze_directions = true.
Proof. vm_compute. reflexivity. Qed.

End GeometryExtraProofs.

Module GeometryExtraClaims.
Import Rotation Gaze FloatFacts GeometryProofs GeometryExtraProofs.

(** X8: [getNormalizedOffset] clamps: its result is NaN (a NaN coordinate,
    or an infinite range) or lies in [-1, 1]. *)
Theorem getNormalizedOffset_range (irisPos minPos maxPos : float) :
  PrimFloat.is_nan (getNormalizedOffset irisPos minPos maxPos) = true
  \/ (PrimFloat.leb (-1) (getNormalizedOffset irisPos minPos maxPos) = true
      /\ PrimFloat.leb (getNormalizedOffset irisPos minPos maxPos) 1 = true).
Proof. apply normalized_unit_range. Qed.

(** X9: [analyzeGaze] never throws and its [confidence] is NaN or at least 0;
    the per-eye offsets it averages, from [getHorizontalOffset] and
    [getVerticalOffset], are always computed (neither throws) and each is NaN
    or lies in [-1, 1]. *)
Theorem analyzeGaze_ranges :
  (forall landmarks : input,
     exists g, analyzeGaze landmarks = Ok g
       /\ (PrimFloat.is_nan (confidence g) = true \/ PrimFloat.leb 0 (confidence g) = true))
  /\ (forall iris inner outer : lval,
        exists o, getHorizontalOffset iris inner outer = Ok o /\ unit_range o)
  /\ (forall (iris top bottom : lval) (eyeWidth : float),
        exists v, getVerticalOffset iris top bottom eyeWidth = Ok v /\ unit_range (offset v)).
Proof.
  split; [|split].
  - intros landmarks.
    destruct landmarks as [l|];
      [|exists unknown_gaze; split; [reflexivity|right; reflexivity]].
    destruct (Nat.ltb_spec (List.length l) 478) as [L|L].
    + exists unknown_gaze. split; [|right; reflexivity].
      unfold analyzeGaze. rewrite (proj2 (Nat.ltb_lt _ _) L). reflexivity.
    + destruct (analyzeGaze_full l L) as (rh & lh & rv & lv & _ & _ & _ & _ & ->).
      cbv zeta. eexists. split; [reflexivity|]. simpl.
      match goal with |- context [js_max 0 ?c] => set (cf := c) end.
      destruct (PrimFloat.is_nan cf) eqn:Nc.
      * left. rewrite (js_max_nan_inv 0 cf Nc). reflexivity.
      * right. exact (proj1 (proj2 (js_max_cases 0 cf eq_refl Nc))).
  - intros iris inner outer.
    destruct (getHorizontalOffset_ok iris inner outer) as [o Ho].
    exists o. split; [exact Ho|exact (horizontal_unit_range _ _ _ _ Ho)].
  - intros iris top bottom w.
    destruct (getVerticalOffset_ok iris top bottom w) as [v Hv].
    exists v. split; [exact Hv|exact (vertical_unit_range _ _ _ _ _ Hv)].
Qed.

(** X10: [analyzeGaze] never throws; its [gazeDirection] is one of UNKNOWN,
    CENTER, UP, DOWN, LEFT, RIGHT, UP_LEFT, UP_RIGHT, DOWN_LEFT, DOWN_RIGHT;
    [isLookingAway] holds exactly when the direction is neither CENTER nor
    UNKNOWN; and the GAZE_AWAY message built from the direction reads
    "Warning: Eyes looking " followed by away, unknown, up, down, left, right,
    up-left, up-right, down-left or down-right. *)
Theorem analyzeGaze_direction (landmarks : input) :
  exists g, analyzeGaze landmarks = Ok g
    /\ In (gazeDirection g) gaze_directions
    /\ isLookingAway g = negb (String.eqb (gazeDirection g) "CENTER"
                               || String.eqb (gazeDirection g) "UNKNOWN")
    /\ exists m, FlagManager.getFlagMessage "GAZE_AWAY" (FlagManager.GStr (gazeDirection g)) = MStr m
                 /\ In m gaze_away_messages.
Proof.
  assert (Msg : forall d, In d gaze_directions ->
            exists m, FlagManager.getFlagMessage "GAZE_AWAY" (FlagManager.GStr d) = MStr m
                      /\ In m gaze_away_messages).
  { intros d Hd. pose proof gaze_directions_messages as G.
    rewrite forallb_forall in G. specialize (G d Hd).
    destruct (FlagManager.getFlagMessage "GAZE_AWAY" (FlagManager.GStr d)) as [m|n];
      [|discriminate].
    exists m. split; [reflexivity|].
    apply existsb_exists in G as [m' [Hm' E]]. apply String.eqb_eq in E. subst. exact Hm'. }
  assert (Full : forall g, In (gazeDirection g) gaze_directions ->
            isLookingAway g = negb (String.eqb (gazeDirection g) "CENTER"
                                    || String.eqb (gazeDirection g) "UNKNOWN") ->
            exists g', Ok g = Ok g' /\ In (gazeDirection g') gaze_directions
              /\ isLookingAway g' = negb (String.eqb (gazeDirection g') "CENTER"
                                         || String.eqb (gazeDirection g') "UNKNOWN")
              /\ exists m, FlagManager.getFlagMessage "GAZE_AWAY"
                             (FlagManager.GStr (gazeDirection g')) = MStr m
                           /\ In m gaze_away_messages).
  { intros g H1 H2. exists g. split; [reflexivity|]. split; [exact H1|]. split; [exact H2|].
    apply Msg. exact H1. }
  destruct landmarks as [l|]; [|apply Full; simpl; auto].
  destruct (Nat.ltb_spec (List.length l) 478) as [L|L].
  - unfold analyzeGaze. rewrite (proj2 (Nat.ltb_lt _ _) L). apply Full; simpl; auto.
  - destruct (analyzeGaze_full l L) as (rh & lh & rv & lv & _ & _ & _ & _ & ->).
    cbv zeta. apply Full;
    destruct (valid rv && valid lv);
    destruct (PrimFloat.ltb ((rh + lh) / 2) (- HORIZONTAL_THRESHOLD));
    try destruct (PrimFloat.ltb HORIZONTAL_THRESHOLD ((rh + lh) / 2));
    try destruct (PrimFloat.ltb ((offset rv + offset lv) / 2) (- VERTICAL_THRESHOLD));
    try destruct (PrimFloat.ltb VERTICAL_THRESHOLD ((offset rv + offset lv) / 2));
    vm_compute; auto 11.
Qed.

(** X11: on arrays of at least 478 landmarks, [analyzeRotation] reads only
    the nose tip and the two ears for [yaw] and [isRotated], and only the two
    outer eye corners for [roll]. *)
Theorem analyzeRotation_local (l1 l2 : list lval) :
  478 <= List.length l1 -> 478 <= List.length l2 ->
  exists r1 r2, analyzeRotation (Some l1) = Ok r1 /\ analyzeRotation (Some l2) = Ok r2
    /\ (at_ l1 NOSE_TIP = at_ l2 NOSE_TIP -> at_ l1 LEFT_EAR = at_ l2 LEFT_EAR ->
        at_ l1 RIGHT_EAR = at_ l2 RIGHT_EAR ->
        yaw r1 = yaw r2 /\ isRotated r1 = isRotated r2)
    /\ (at_ l1 Rotation.LEFT_EYE_OUTER = at_ l2 Rotation.LEFT_EYE_OUTER ->
        at_ l1 Rotation.RIGHT_EYE_OUTER = at_ l2 Rotation.RIGHT_EYE_OUTER ->
        roll r1 = roll r2).
Proof.
  intros H1 H2.
  destruct (analyzeRotation_full l1 H1) as (y1 & o1 & Y1 & R1 & A1).
  destruct (analyzeRotation_full l2 H2) as (y2 & o2 & Y2 & R2 & A2).
  eexists _, _. split; [exact A1|]. split; [exact A2|]. simpl. split.
  - intros En El Er.
    assert (E : estimateYaw l1 = estimateYaw l2)
      by (unfold estimateYaw; rewrite En, El, Er; reflexivity).
    rewrite Y1, Y2 in E. inversion E. subst. split; reflexivity.
  - intros El Er.
    assert (E : estimateRoll l1 = estimateRoll l2)
      by (unfold estimateRoll; rewrite El, Er; reflexivity).
    rewrite R1, R2 in E. inversion E. reflexivity.
Qed.

(** The ten eye landmarks [analyzeGaze] reads. *)
Definition eye_landmarks : list nat :=
  [RIGHT_IRIS; LEFT_IRIS; RIGHT_EYE_INNER; Gaze.RIGHT_EYE_OUTER; RIGHT_EYE_TOP;
   RIGHT_EYE_BOTTOM; LEFT_EYE_INNER; Gaze.LEFT_EYE_OUTER; LEFT_EYE_TOP; LEFT_EYE_BOTTOM].

(** X12: two arrays of at least 478 landmarks that agree on the ten eye
    landmarks (both irises and the inner, outer, top and bottom point of each
    eye) get the same [analyzeGaze] result. *)
Theorem analyzeGaze_local (l1 l2 : list lval) :
  478 <= List.length l1 -> 478 <= List.length l2 ->
  Forall (fun i => at_ l1 i = at_ l2 i) eye_landmarks ->
  analyzeGaze (Some l1) = analyzeGaze (Some l2).
Proof.
  intros H1 H2 HF. unfold eye_landmarks in HF.
  repeat match goal with
         | H : Forall _ (_ :: _) |- _ => inversion H; subst; clear H
         end.
  unfold analyzeGaze.
  rewrite (proj2 (Nat.ltb_ge _ _) H1), (proj2 (Nat.ltb_ge _ _) H2).
  cbv zeta.
  repeat match goal with
         | H : at_ l1 ?i = at_ l2 ?i |- _ => rewrite H; clear H
         end.
  reflexivity.
Qed.

End GeometryExtraClaims.

Module SchedulerExtraProofs.
Import FrameProcessor SchedulerProofs.

(** Resuming an activation emits one callback and ends it, and never sets
    the interval. *)
Lemma resume_one (s : fp) (t0 : float) (d : detection) (img : sum (list Z) string) (now : float) :
  intervalId s = false ->
  let '(s1, o1) := processFrame_resume s t0 d img now in
  List.length o1 = 1 /\ intervalId s1 = false /\ pending s1 = None.
Proof.
  intros Hi. destruct s as [iv ip co dis pe]; simpl in Hi; subst.
  unfold processFrame_resume.
  destruct d; [|simpl; auto]. destruct img; [|simpl; auto].
  destruct (PrimFloat.ltb MAX_PROCESSING_MS (now - t0)); simpl; auto.
  destruct co as [|[|co]]; simpl; auto.
Qed.

Lemma stopped_outputs (rest : list input) : forall s,
  intervalId s = false -> ~ In Start rest ->
  List.length (snd (run s rest)) <= (if pending s then 1 else 0).
Proof.
  induction rest as [|i rest IH]; intros s Hi Hs; [simpl; lia|].
  assert (Hs' : ~ In Start rest) by (intro H; apply Hs; right; exact H).
  destruct i as [rs now c | d img now | | | ].
  - simpl. rewrite Hi. destruct (run s rest) as [s2 o2] eqn:R.
    pose proof (IH s Hi Hs') as B. rewrite R in B. exact B.
  - destruct (pending s) as [t0|] eqn:P.
    + pose proof (resume_one s t0 d img now Hi) as Hr.
      simpl. rewrite P.
      destruct (processFrame_resume s t0 d img now) as [s1 o1]. destruct Hr as (L & I1 & P1).
      rewrite (run_idle s1 rest I1 P1 Hs'). simpl. rewrite length_app, L. simpl. lia.
    + rewrite (run_idle s (DetectSettled d img now :: rest) Hi P Hs). simpl. lia.
  - exfalso. apply Hs. left. reflexivity.
  - simpl. destruct (run (stop s) rest) as [s2 o2] eqn:R.
    pose proof (IH (stop s) eq_refl Hs') as B. rewrite R in B. exact B.
  - simpl. destruct (run (stop s) rest) as [s2 o2] eqn:R.
    pose proof (IH (stop s) eq_refl Hs') as B. rewrite R in B. exact B.
Qed.

(** One completed cycle within the budget, from an idle running processor. *)
Lemma cycle_in_budget s rs t0 c f px t1 :
  intervalId s = true -> isProcessing s = false -> isDisabled s = false ->
  2 <= rs -> PrimFloat.ltb 200 (t1 - t0) = false ->
  run s (cycle rs t0 (DetOk c f) (inl px) t1) =
    (mkFP true false 0 false None,
     [OnAnalysis (report c (calculateBrightness px) (t1 - t0)%float)]).
Proof.
  intros Hi Hp Hd Hrs Hlt.
  destruct s as [iv ip co dis pe]; simpl in *; subst.
  destruct rs as [|[|rs]]; [lia|lia|].
  unfold cycle, run, step, processFrame_begin, processFrame_resume, MAX_PROCESSING_MS.
  cbn [intervalId isProcessing isDisabled pending consecutiveOverruns orb Nat.ltb Nat.leb].
  rewrite Hlt. reflexivity.
Qed.

Definition analysis_of (c : completed) : output :=
  OnAnalysis (report (c_count c) (calculateBrightness (c_pixels c)) (c_end c - c_start c)%float).

Lemma trailing_overruns_snoc (cs : list completed) (c : completed) :
  trailing_overruns (app cs [c]) = if overran c then S (trailing_overruns cs) else 0.
Proof. unfold trailing_overruns. rewrite fold_left_app. reflexivity. Qed.

Lemma trailing_overruns_le_length (cs : list completed) :
  trailing_overruns cs <= List.length cs.
Proof.
  induction cs as [|c cs IH] using rev_ind; [unfold trailing_overruns; simpl; lia|].
  rewrite trailing_overruns_snoc, length_app. simpl.
  destruct (overran c); lia.
Qed.

Lemma run_start_app (xs ys : list input) :
  run initial (Start :: app xs ys) =
    let '(s1, o1) := run initial (Start :: xs) in
    let '(s2, o2) := run s1 ys in (s2, app o1 o2).
Proof. exact (run_app initial (Start :: xs) ys). Qed.

Lemma breaker_run (cs : list completed) :
  Forall (fun c => 2 <= c_readyState c) cs ->
  (forall pre post, cs = app pre post -> trailing_overruns pre < 3) ->
  run initial (Start :: flat_map completed_inputs cs) =
    (mkFP true false (trailing_overruns cs) false None, map analysis_of cs).
Proof.
  induction cs as [|c cs IH] using rev_ind; intros HF HP; [reflexivity|].
  apply Forall_app in HF as [HF Hc]. inversion Hc as [|? ? Hrs _]; subst.
  rewrite flat_map_app, run_start_app, IH; [|exact HF|].
  2: { intros pre post E. apply (HP pre (app post [c])). rewrite E, app_assoc. reflexivity. }
  cbn [flat_map]. rewrite app_nil_r. unfold completed_inputs.
  pose proof (HP (app cs [c]) [] (eq_sym (app_nil_r _))) as H3.
  rewrite trailing_overruns_snoc in *. unfold overran, MAX_PROCESSING_MS in *.
  destruct (PrimFloat.ltb 200 (c_end c - c_start c)) eqn:L.
  - rewrite (cycle_overrun (mkFP true false (trailing_overruns cs) false None)
      _ _ _ _ _ _ eq_refl eq_refl eq_refl Hrs L).
    cbn [consecutiveOverruns]. destruct (Nat.leb_spec 3 (S (trailing_overruns cs))); [lia|].
    rewrite map_app. reflexivity.
  - rewrite (cycle_in_budget (mkFP true false (trailing_overruns cs) false None)
      _ _ _ _ _ _ eq_refl eq_refl eq_refl Hrs L).
    rewrite map_app. reflexivity.
Qed.

Lemma ceil40_step (n : nat) : 0 < n -> (n + 39) / 40 = S ((n - 40 + 39) / 40).
Proof.
  intros Hn. destruct (Nat.le_gt_cases 40 n) as [G|G].
  - replace (n + 39) with ((n - 40 + 39) + 1 * 40) by lia.
    rewrite Nat.div_add, Nat.add_1_r by lia. reflexivity.
  - replace (n - 40 + 39) with 39 by lia.
    change (39 / 40) with 0. symmetry. apply Nat.div_unique with (n - 1); lia.
Qed.

Lemma brightness_loop_count (data : list Z) (fuel : nat) : forall i t c,
  (List.length data - i + 39) / 40 <= fuel ->
  snd (brightness_loop fuel data i t c) = c + (List.length data - i + 39) / 40.
Proof.
  induction fuel as [|fuel IH]; intros i t c H.
  - apply Nat.le_0_r in H. rewrite H, Nat.add_0_r. reflexivity.
  - cbn [brightness_loop]. destruct (Nat.ltb_spec i (List.length data)) as [L|L]; cbv zeta.
    + rewrite (ceil40_step (List.length data - i)) in * by lia.
      replace (List.length data - i - 40) with (List.length data - (i + 40)) in * by lia.
      set (q := (List.length data - (i + 40) + 39) / 40) in *.
      rewrite IH; change (i + 4 * 10) with (i + 40); fold q; clearbody q; lia.
    + replace (List.length data - i + 39) with 39 by lia.
      change (39 / 40) with 0. rewrite Nat.add_0_r. reflexivity.
Qed.

End SchedulerExtraProofs.

Module SchedulerExtraClaims.
Import FrameProcessor SchedulerProofs SchedulerExtraProofs.

(** X13: after any sequence of events from the initial processor,
    [getStatus()] reports [isProcessing] exactly while a frame awaits its
    detection; a disabled processor is not running, has no frame in flight
    and shows [consecutiveOverruns] = 3; a processor that is not disabled
    shows fewer than 3. *)
Theorem getStatus_invariant (is : list input) :
  let s := fst (run initial is) in
  Status.isProcessing (getStatus s) = in_flight s
  /\ (Status.isDisabled (getStatus s) = true ->
      Status.isRunning (getStatus s) = false /\ pending s = None
      /\ Status.consecutiveOverruns (getStatus s) = 3)
  /\ (Status.isDisabled (getStatus s) = false -> Status.consecutiveOverruns (getStatus s) < 3).
Proof.
  cbv zeta. assert (I0 : Inv initial) by (unfold Inv; simpl; split; [reflexivity|lia]).
  pose proof (Inv_run is initial I0) as [H1 H2].
  unfold getStatus. cbn [Status.isProcessing Status.isDisabled Status.isRunning
    Status.consecutiveOverruns].
  split; [exact H1|].
  destruct (isDisabled (fst (run initial is))); split; intros E; try discriminate; auto.
Qed.

(** X14: after [stop()] or [cleanup()], until the next [start()], the
    processor makes at most one more callback, for the frame already awaiting
    its detection, and none when no frame is in flight. *)
Theorem stopped_at_most_one_callback (s : fp) (rest : list input) :
  ~ In Start rest ->
  List.length (snd (run s (Stop :: rest))) <= (if pending s then 1 else 0)
  /\ List.length (snd (run s (Cleanup :: rest))) <= (if pending s then 1 else 0).
Proof.
  intros Hs.
  assert (E : forall i, step s i = (stop s, []) ->
            List.length (snd (run s (i :: rest))) <= (if pending s then 1 else 0)).
  { intros i Hi. simpl. rewrite Hi.
    pose proof (stopped_outputs rest (stop s) eq_refl Hs) as B.
    destruct (run (stop s) rest) as [s2 o2]. exact B. }
  split; apply E; reflexivity.
Qed.

(** X15: started from scratch and fed completed cycles (video ready, capture,
    detection and pixel read succeeding), the processor reports one analysis
    per cycle and its [consecutiveOverruns] is the number of over-budget
    cycles at the end of the sequence, as long as no three over-budget cycles
    come in a row; the first time three do, that cycle disables the processor
    with "Processing time exceeded budget" instead of reporting. *)
Theorem overrun_breaker_consecutive (cs : list completed) :
  Forall (fun c => 2 <= c_readyState c) cs ->
  (forall pre post, cs = app pre post -> trailing_overruns pre < 3) ->
  run initial (Start :: flat_map completed_inputs cs) =
    (mkFP true false (trailing_overruns cs) false None, map analysis_of cs)
  /\ forall c, 2 <= c_readyState c -> trailing_overruns (app cs [c]) = 3 ->
     run initial (Start :: flat_map completed_inputs (app cs [c])) =
       (mkFP false false 3 true None,
        app (map analysis_of cs) [OnDisabled "Processing time exceeded budget"]).
Proof.
  intros HF HP. split; [apply breaker_run; assumption|].
  intros c Hrs H3.
  rewrite flat_map_app, run_start_app, breaker_run by assumption.
  cbn [flat_map]. rewrite app_nil_r. unfold completed_inputs.
  rewrite trailing_overruns_snoc in H3. unfold overran, MAX_PROCESSING_MS in H3.
  destruct (PrimFloat.ltb 200 (c_end c - c_start c)) eqn:L; [|discriminate].
  injection H3 as H3.
  rewrite (cycle_overrun (mkFP true false (trailing_overruns cs) false None)
      _ _ _ _ _ _ eq_refl eq_refl eq_refl Hrs L).
  cbn [consecutiveOverruns]. rewrite H3. reflexivity.
Qed.

(** X16: [calculateBrightness] samples the red, green and blue bytes of every
    10th pixel: over [n] bytes it takes ceil(n / 40) samples; an empty image
    has brightness 0. *)
Theorem calculateBrightness_samples (data : list Z) :
  snd (brightness_loop (S (List.length data)) data 0 0 0) = (List.length data + 39) / 40
  /\ calculateBrightness [] = 0%float.
Proof.
  split; [|reflexivity].
  rewrite brightness_loop_count; [rewrite Nat.sub_0_r; reflexivity|].
  rewrite Nat.sub_0_r. apply Nat.Div0.div_le_upper_bound. lia.
Qed.

End SchedulerExtraClaims.

Module AnalyzerExtraProofs.
Import FaceAnalyzer.

Definition is_loaded (o : out) : bool := match o with Loaded => true | _ => false end.
Definition is_closed (o : out) : bool := match o with Closed => true | _ => false end.

Definition reach (s : st) : Prop :=
  s = initial \/ s = mkSt false PPending true \/ s = mkSt true PResolved false.

Lemma count_out_app (p : out -> bool) (o1 o2 : list out) :
  count_out p (app o1 o2) = count_out p o1 + count_out p o2.
Proof. unfold count_out. rewrite filter_app, length_app. reflexivity. Qed.

Definition b2n (b : bool) : nat := if b then 1 else 0.

Lemma reach_step (s : st) (e : ev) :
  reach s ->
  let '(s1, o) := step s e in
  reach s1
  /\ count_out is_started o + b2n (loading s) = count_out is_settled o + b2n (loading s1)
  /\ count_out is_loaded o + b2n (isInitialized s) = count_out is_closed o + b2n (isInitialized s1).
Proof.
  intros [->|[->| ->]]; destruct e as [|[|]|]; vm_compute;
    repeat split; auto; unfold reach; auto.
Qed.

Lemma reach_run (es : list ev) : forall s,
  reach s ->
  let '(s1, o) := run s es in
  reach s1
  /\ count_out is_started o + b2n (loading s) = count_out is_settled o + b2n (loading s1)
  /\ count_out is_loaded o + b2n (isInitialized s) = count_out is_closed o + b2n (isInitialized s1).
Proof.
  induction es as [|e es IH]; intros s H; [simpl; auto|].
  simpl. pose proof (reach_step s e H) as Hs.
  destruct (step s e) as [s1 o1]. destruct Hs as (R1 & A1 & B1).
  pose proof (IH s1 R1) as Hr. destruct (run s1 es) as [s2 o2]. destruct Hr as (R2 & A2 & B2).
  rewrite !count_out_app. split; [exact R2|]. split; lia.
Qed.

End AnalyzerExtraProofs.

Module AnalyzerExtraClaims.
Import FaceAnalyzer AnalyzerExtraProofs.

(** X17: whatever the order of [detectFaces] calls, load outcomes and
    [cleanup()] calls from the initial module state, loads never overlap: the
    number of loads started equals the number that finished (succeeded or
    failed), plus one while a load is running. And no instance leaks: the
    number of instances created equals the number [cleanup()] closed, plus
    one while [isInitialized()] holds. *)
Theorem singleton_load_accounting (es : list ev) :
  let '(s, o) := run initial es in
  count_out is_started o = count_out is_settled o + (if loading s then 1 else 0)
  /\ count_out is_loaded o = count_out is_closed o + (if isInitialized s then 1 else 0).
Proof.
  pose proof (reach_run es initial (or_introl eq_refl)) as H.
  destruct (run initial es) as [s o]. destruct H as (_ & A & B).
  unfold b2n in *. simpl in A, B. lia.
Qed.

End AnalyzerExtraClaims.

Module ExtraWitnesses.
Import FlagManager FlagExtraProofs FlagExtraClaims Rotation Gaze GeometryExtraClaims
  FrameProcessor SchedulerProofs SchedulerExtraProofs SchedulerExtraClaims Fixtures.

Definition no_face : Analysis.t := Analysis.mk 0 false false GNull 30.
Definition one_face : Analysis.t := Analysis.mk 1 false false GNull 120.

Lemma versions_agree_witness :
  Forall (fun p => Analysis.isRotated (snd p) = false /\ Analysis.isLookingAway (snd p) = false)
    [(0%float, one_face); (500%float, no_face); (1000%float, no_face)]
  /\ agree (FlagManager.run createInitialState
            [(0%float, one_face); (500%float, no_face); (1000%float, no_face)])
       (FlagManagerV2.run FlagManagerV2.createInitialState
          [(0%float, one_face); (500%float, no_face); (1000%float, no_face)]).
Proof.
  split.
  - repeat constructor.
  - apply versions_agree_without_rotation_gaze. repeat constructor.
Defined.

Lemma getFlagMessage_unknown_flag_witness :
  ~ In "toString" ["FACE_OK"; "FACE_MISSING"; "MULTIPLE_FACES"; "LOW_LIGHT"]
  /\ FlagManagerV2.getFlagMessage "toString" = MInherited "toString"
  /\ (~ In "toString" ["FACE_ROTATED"; "GAZE_AWAY"] ->
      getFlagMessage "toString" GNull = MInherited "toString").
Proof.
  assert (H : ~ In "toString" ["FACE_OK"; "FACE_MISSING"; "MULTIPLE_FACES"; "LOW_LIGHT"])
    by (simpl; intuition discriminate).
  split; [exact H|].
  exact (getFlagMessage_unknown_flag "toString" GNull H).
Defined.

(** The flat face with its first landmark replaced by [null]. *)
Definition flat_face_null0 : list lval := LNull :: tl flat_face.

Lemma analyzeRotation_local_witness :
  478 <= List.length flat_face /\ 478 <= List.length flat_face_null0
  /\ exists r1 r2, analyzeRotation (Some flat_face) = Ok r1
       /\ analyzeRotation (Some flat_face_null0) = Ok r2
       /\ (at_ flat_face NOSE_TIP = at_ flat_face_null0 NOSE_TIP ->
           at_ flat_face LEFT_EAR = at_ flat_face_null0 LEFT_EAR ->
           at_ flat_face RIGHT_EAR = at_ flat_face_null0 RIGHT_EAR ->
           yaw r1 = yaw r2 /\ isRotated r1 = isRotated r2)
       /\ (at_ flat_face Rotation.LEFT_EYE_OUTER = at_ flat_face_null0 Rotation.LEFT_EYE_OUTER ->
           at_ flat_face Rotation.RIGHT_EYE_OUTER = at_ flat_face_null0 Rotation.RIGHT_EYE_OUTER ->
           roll r1 = roll r2).
Proof.
  assert (H1 : 478 <= List.length flat_face) by (apply Nat.leb_le; vm_compute; reflexivity).
  assert (H2 : 478 <= List.length flat_face_null0) by (apply Nat.leb_le; vm_compute; reflexivity).
  split; [exact H1|]. split; [exact H2|].
  exact (analyzeRotation_local flat_face flat_face_null0 H1 H2).
Defined.

Lemma analyzeGaze_local_witness :
  478 <= List.length flat_face /\ 478 <= List.length flat_face_null0
  /\ Forall (fun i => at_ flat_face i = at_ flat_face_null0 i) eye_landmarks
  /\ analyzeGaze (Some flat_face) = analyzeGaze (Some flat_face_null0).
Proof.
  assert (H1 : 478 <= List.length flat_face) by (apply Nat.leb_le; vm_compute; reflexivity).
  assert (H2 : 478 <= List.length flat_face_null0) by (apply Nat.leb_le; vm_compute; reflexivity).
  assert (H3 : Forall (fun i => at_ flat_face i = at_ flat_face_null0 i) eye_landmarks)
    by (unfold eye_landmarks; repeat constructor).
  split; [exact H1|]. split; [exact H2|]. split; [exact H3|].
  exact (analyzeGaze_local flat_face flat_face_null0 H1 H2 H3).
Defined.

(** A frame in flight; after [stop()] its detection settles, then the
    interval would have fired. *)
Definition in_flight_fp : fp := mkFP true true 0 false (Some 0%float).
Definition late_events : list input :=
  [DetectSettled (DetOk 1 []) (inl grey_pixels) 50%float; Tick (Some 4) 500%float CaptureOk].

Lemma stopped_at_most_one_callback_witness :
  ~ In Start late_events
  /\ List.length (snd (run in_flight_fp (Stop :: late_events))) <= 1
  /\ List.length (snd (run in_flight_fp (Cleanup :: late_events))) <= 1.
Proof.
  assert (H : ~ In Start late_events) by (simpl; intuition discriminate).
  split; [exact H|].
  exact (stopped_at_most_one_callback in_flight_fp late_events H).
Defined.

(** Two cycles of 250 ms, then a third. *)
Definition slow_cycles : list completed :=
  [mkCompleted 4 0 1 [] grey_pixels 250; mkCompleted 4 500 1 [] grey_pixels 750].

Lemma overrun_breaker_consecutive_witness :
  Forall (fun c => 2 <= c_readyState c) slow_cycles
  /\ (forall pre post, slow_cycles = app pre post -> trailing_overruns pre < 3)
  /\ run initial (Start :: flat_map completed_inputs slow_cycles) =
       (mkFP true false (trailing_overruns slow_cycles) false None, map analysis_of slow_cycles)
  /\ (forall c, 2 <= c_readyState c -> trailing_overruns (app slow_cycles [c]) = 3 ->
      run initial (Start :: flat_map completed_inputs (app slow_cycles [c])) =
        (mkFP false false 3 true None,
         app (map analysis_of slow_cycles) [OnDisabled "Processing time exceeded budget"])).
Proof.
  assert (H1 : Forall (fun c => 2 <= c_readyState c) slow_cycles)
    by (unfold slow_cycles; repeat constructor; simpl; lia).
  assert (H2 : forall pre post, slow_cycles = app pre post -> trailing_overruns pre < 3).
  { intros pre post E. pose proof (trailing_overruns_le_length pre) as B.
    apply (f_equal (@List.length completed)) in E. rewrite length_app in E.
    simpl in E. lia. }
  split; [exact H1|]. split; [exact H2|].
  exact (overrun_breaker_consecutive slow_cycles H1 H2).
Defined.

End ExtraWitnesses.
